(** * pload: grid, output-catalog and configuration file codecs

    A shallow embedding of [pload.py] (PLUTO grid files, [dbl.out]/[flt.out]
    catalogs and [pluto.ini]) together with the properties of its readers
    and writers.

    Conventions of the embedding.
    - A Python [str] is a [list ascii]; a character is a code point below 256.
    - A text file is the string of its characters; iterating over a file
      opened for reading yields its lines, each with its terminating
      newline, after the translation of the line ends (universal newlines).
    - A Python [float] is a primitive binary64 [float]; arithmetic is the
      kernel's IEEE 754 arithmetic.
    - The built-ins the program calls ([int], [float], [str.split],
      [str.strip], [str.format], [numpy.around]) are modelled after CPython
      and NumPy, on the inputs described at each definition.
    - A raised exception is an [Err] result; a function that can raise
      returns a [result]. *)

From Stdlib Require Import ZArith Lia List Ascii String Floats.
From Stdlib Require Import DecimalString DecimalPos DecimalN DecimalZ.
From stdpp Require Import base option list strings gmap.

Local Open Scope Z_scope.
Local Open Scope list_scope.

(** ** Exceptions and results *)

Inductive exn : Set :=
  | IndexError
  | ValueError
  | NameError
  | KeyError
  | StopIteration.

Inductive result (A : Type) : Type :=
  | Ok (a : A)
  | Err (e : exn).
Arguments Ok {A} a.
Arguments Err {A} e.

#[global] Instance result_ret : MRet result := fun A a => Ok a.
#[global] Instance result_bind : MBind result :=
  fun A B f r => match r with Ok a => f a | Err e => Err e end.

(** [l[i]] for a non-negative index. *)
Definition getitem {A} (l : list A) (i : nat) : result A :=
  match l !! i with
  | Some x => Ok x
  | None => Err IndexError
  end.

(** ** Strings *)

Abbreviation pystr := (list ascii).

Definition str (s : string) : pystr := list_ascii_of_string s.

Definition code (c : ascii) : N := N_of_ascii c.

Definition newline : ascii := ascii_of_N 10.
Definition carriage_return : ascii := ascii_of_N 13.
Definition tab : ascii := ascii_of_N 9.
Definition space : ascii := ascii_of_N 32.

(** [str.isspace] on one character: the white-space code points below 256. *)
Definition isspace (c : ascii) : bool :=
  let n := code c in
  ((9 <=? n) && (n <=? 13) || (28 <=? n) && (n <=? 32)
   || (n =? 133) || (n =? 160))%N.

(** A decimal digit [0]..[9]. *)
Definition isdecimal (c : ascii) : bool :=
  let n := code c in ((48 <=? n) && (n <=? 57))%N.

Fixpoint dropwhile {A} (p : A -> bool) (l : list A) : list A :=
  match l with
  | [] => []
  | x :: l' => if p x then dropwhile p l' else l
  end.

Fixpoint takewhile {A} (p : A -> bool) (l : list A) : list A :=
  match l with
  | [] => []
  | x :: l' => if p x then x :: takewhile p l' else []
  end.

Definition lstrip_with (p : ascii -> bool) (s : pystr) : pystr :=
  dropwhile p s.
Definition rstrip_with (p : ascii -> bool) (s : pystr) : pystr :=
  rev (dropwhile p (rev s)).

(** [s.strip()], [s.lstrip(chars)], [s.rstrip(chars)]. *)
Definition strip (s : pystr) : pystr :=
  rstrip_with isspace (lstrip_with isspace s).
Definition inchars (cs : pystr) (c : ascii) : bool := bool_decide (c ∈ cs).
Definition lstrip_chars (cs s : pystr) : pystr := lstrip_with (inchars cs) s.
Definition rstrip_chars (cs s : pystr) : pystr := rstrip_with (inchars cs) s.

(** [s.startswith(c)] and [s.endswith(c)] for a one-character [c]. *)
Definition startswith (c : ascii) (s : pystr) : bool :=
  match s with
  | x :: _ => bool_decide (x = c)
  | [] => false
  end.
Definition endswith (c : ascii) (s : pystr) : bool :=
  match last s with
  | Some x => bool_decide (x = c)
  | None => false
  end.

(** [s.split()]: the maximal runs of non-space characters. *)
Fixpoint split (s : pystr) : list pystr :=
  match s with
  | [] => []
  | c :: r =>
      if isspace c then split r
      else match r with
           | [] => [[c]]
           | d :: _ =>
               if isspace d then [c] :: split r
               else match split r with
                    | w :: ws => (c :: w) :: ws
                    | [] => [[c]]
                    end
           end
  end.

(** [s.split(' ', 1)]: cut at the first space character, if there is one. *)
Fixpoint split_space1 (s : pystr) : list pystr :=
  match s with
  | [] => [[]]
  | c :: r =>
      if bool_decide (c = space) then [[]; r]
      else match split_space1 r with
           | k :: rest => (c :: k) :: rest
           | [] => [[c]]
           end
  end.

(** The translation of line ends done by a file opened with
    [open(fname, 'r')] (universal newlines): a carriage return followed by
    a newline, and a carriage return alone, are read as one newline. *)
Fixpoint universal_newlines (s : pystr) : pystr :=
  match s with
  | [] => []
  | c :: r =>
      if bool_decide (c = carriage_return) then
        match r with
        | d :: _ =>
            if bool_decide (d = newline) then universal_newlines r
            else newline :: universal_newlines r
        | [] => [newline]
        end
      else c :: universal_newlines r
  end.

(** A text cut after each newline (the last piece may lack one). *)
Fixpoint text_lines (s : pystr) : list pystr :=
  match s with
  | [] => []
  | c :: r =>
      if bool_decide (c = newline) then [c] :: text_lines r
      else match text_lines r with
           | l :: ls => (c :: l) :: ls
           | [] => [[c]]
           end
  end.

(** The lines that iterating over the open file yields. *)
Definition file_lines (s : pystr) : list pystr :=
  text_lines (universal_newlines s).

(** [c.upper()] for one character.  The lower-case letters below code
    point 256 map to their capitals, the sharp s to [SS]; the micro sign
    and the y with diaeresis, whose capitals lie beyond code point 255,
    are left as they are. *)
Definition upper_char (c : ascii) : pystr :=
  let n := code c in
  if ((97 <=? n) && (n <=? 122)
      || (224 <=? n) && (n <=? 254) && negb (n =? 247))%N
  then [ascii_of_N (n - 32)]
  else if (n =? 223)%N then ["S"%char; "S"%char]
  else [c].
Definition upper (s : pystr) : pystr := concat (map upper_char s).

(** [s.ljust(w)], the padding of the format specification [{:<w}]. *)
Definition ljust (w : nat) (s : pystr) : pystr :=
  s ++ replicate (w - length s)%nat space.

(** ** Integers as text *)

(** [str(n)] and ['{}'.format(n)] for an integer. *)
Definition str_of_Z (z : Z) : pystr :=
  str (NilZero.string_of_int (Z.to_int z)).

(** The white space [int] and [float] skip at both ends of their
    argument: that of [str.isspace] without the separators 28 to 31. *)
Definition isspace_number (c : ascii) : bool :=
  let n := code c in
  ((9 <=? n) && (n <=? 13) || (n =? 32) || (n =? 133) || (n =? 160))%N.

Definition strip_number (s : pystr) : pystr :=
  rstrip_with isspace_number (lstrip_with isspace_number s).

(** Digit grouping in numeric text: an underscore is accepted between two
    digits only, and ignored there.  [prev] is the character before [s]. *)
Fixpoint ungroup (prev : ascii) (s : pystr) : option pystr :=
  match s with
  | [] => Some []
  | c :: r =>
      if bool_decide (c = "_"%char) then
        if isdecimal prev
           && match r with d :: _ => isdecimal d | [] => false end
        then ungroup c r
        else None
      else cons c <$> ungroup c r
  end.

(** [int(s)]: optional surrounding white space, an optional sign, and a
    non-empty run of decimal digits, possibly grouped by underscores. *)
Definition py_int (s : pystr) : result Z :=
  let t := strip_number s in
  let '(neg, d) :=
    match t with
    | c :: r =>
        if bool_decide (c = "-"%char) then (true, r)
        else if bool_decide (c = "+"%char) then (false, r)
        else (false, t)
    | [] => (false, [])
    end in
  match ungroup space d with
  | Some d' =>
      match NilZero.uint_of_string (string_of_list_ascii d') with
      | Some u => Ok (if neg then - Z.of_uint u else Z.of_uint u)
      | None => Err ValueError
      end
  | None => Err ValueError
  end.

(** ** Floating point *)

(** The binary64 number nearest to [num / den] (ties to even), for
    [0 <= num] and [0 < den], with the sign [neg].  The quotient is taken
    with more than 60 bits and a sticky bit, then rounded once. *)
Definition float_of_ratio (neg : bool) (num den : Z) : float :=
  if num =? 0 then (if neg then neg_zero else zero)
  else
    let k := Z.max 0 (Z.log2 den - Z.log2 num + 64) in
    let n := num * 2 ^ k in
    let sticky := if n mod den =? 0 then 0 else 1 in
    SF2Prim (binary_normalize prec emax
               (cond_Zopp neg (2 * (n / den) + sticky)) (- k - 1) neg).

(** The value of a run of decimal digits. *)
Definition digits_value (s : pystr) : Z :=
  fold_left (fun acc c => 10 * acc + Z.of_N (code c - 48)) s 0.

(** [digits * 10 ^ e10], correctly rounded. *)
Definition decimal_to_float (neg : bool) (digits : pystr) (e10 : Z) : float :=
  if 0 <=? e10 then float_of_ratio neg (digits_value digits * 10 ^ e10) 1
  else float_of_ratio neg (digits_value digits) (10 ^ (- e10)).

Definition lower_char (c : ascii) : ascii :=
  let n := code c in
  if ((65 <=? n) && (n <=? 90))%N then ascii_of_N (n + 32) else c.

(** An optional leading sign. *)
Definition take_sign (s : pystr) : bool * pystr :=
  match s with
  | c :: r =>
      if bool_decide (c = "-"%char) then (true, r)
      else if bool_decide (c = "+"%char) then (false, r)
      else (false, s)
  | [] => (false, [])
  end.

(** A float literal: an optional sign, then [inf], [infinity] or [nan]
    in any case, or decimal digits with an optional point and an optional
    exponent; at least one digit is required. *)
Definition float_literal (t : pystr) : result float :=
  let '(neg, u) := take_sign t in
  let name := map lower_char u in
  if bool_decide (name = str "inf" \/ name = str "infinity")
  then Ok (if neg then neg_infinity else infinity)
  else if bool_decide (name = str "nan") then Ok nan
  else
    let ip := takewhile isdecimal u in
    let r1 := dropwhile isdecimal u in
    let '(fp, r2) :=
      match r1 with
      | c :: r =>
          if bool_decide (c = "."%char)
          then (takewhile isdecimal r, dropwhile isdecimal r)
          else ([], r1)
      | [] => ([], [])
      end in
    match ip ++ fp with
    | [] => Err ValueError
    | ds =>
        match r2 with
        | [] => Ok (decimal_to_float neg ds (- Z.of_nat (length fp)))
        | c :: r3 =>
            if bool_decide (c = "e"%char \/ c = "E"%char) then
              let '(eneg, r4) := take_sign r3 in
              match r4 with
              | [] => Err ValueError
              | _ =>
                  if forallb isdecimal r4 then
                    let e := digits_value r4 in
                    Ok (decimal_to_float neg ds
                          ((if eneg then - e else e) - Z.of_nat (length fp)))
                  else Err ValueError
              end
            else Err ValueError
        end
    end.

(** [float(s)]: optional surrounding white space, then a float literal
    whose digits may be grouped by underscores. *)
Definition py_float (s : pystr) : result float :=
  match ungroup space (strip_number s) with
  | Some t => float_literal t
  | None => Err ValueError
  end.

(** The character of a digit [0 <= d < 10]. *)
Definition digit_char (d : Z) : ascii := ascii_of_N (48 + Z.to_N d).

(** The [n] low decimal digits of [v], most significant first. *)
Fixpoint fixed_digits (n : nat) (v : Z) : pystr :=
  match n with
  | O => []
  | S n' => fixed_digits n' (v / 10) ++ [digit_char (v mod 10)]
  end.

(** [num / den] rounded to the nearest integer, ties to even. *)
Definition round_half_even (num den : Z) : Z :=
  let q := num / den in
  match (2 * (num mod den)) ?= den with
  | Lt => q
  | Gt => q + 1
  | Eq => if Z.even q then q else q + 1
  end.

(** The exact value [m * 2 ^ e] of a finite float as a fraction. *)
Definition ratio_of_finite (m : positive) (e : Z) : Z * Z :=
  if 0 <=? e then (Z.pos m * 2 ^ e, 1) else (Z.pos m, 2 ^ (- e)).

(** [10 ^ k <= num / den]. *)
Definition le_pow10 (k num den : Z) : bool :=
  if 0 <=? k then 10 ^ k * den <=? num else den <=? num * 10 ^ (- k).

Fixpoint ilog10_down (fuel : nat) (k num den : Z) : Z :=
  match fuel with
  | O => k
  | S f => if le_pow10 k num den then k else ilog10_down f (k - 1) num den
  end.

(** The decimal exponent of [num / den]: the largest [k] with
    [10 ^ k <= num / den], searched downwards from an estimate taken from
    the binary logarithms. *)
Definition ilog10 (num den : Z) : Z :=
  let b := Z.log2 num - Z.log2 den in
  ilog10_down 6 (b * 30103 / 100000 + 2) num den.

(** The 13 significant digits and the decimal exponent of [num / den]. *)
Definition sci_digits (num den : Z) : Z * Z :=
  let k := ilog10 num den in
  let s := 12 - k in
  let n := if 0 <=? s then round_half_even (num * 10 ^ s) den
           else round_half_even num (den * 10 ^ (- s)) in
  if 10 ^ 13 <=? n then (n / 10, k + 1) else (n, k).

Definition fmt_sign (s : bool) : pystr := if s then ["-"%char] else [].

(** The exponent field: a sign and at least two digits. *)
Definition fmt_exp (k : Z) : pystr :=
  (if k <? 0 then "-"%char else "+"%char)
  :: (if Z.abs k <? 10 then ["0"%char] else []) ++ str_of_Z (Z.abs k).

(** ['{:.12e}'.format(x)]. *)
Definition fmt_12e (x : float) : pystr :=
  match Prim2SF x with
  | S754_nan => str "nan"
  | S754_infinity s => fmt_sign s ++ str "inf"
  | S754_zero s => fmt_sign s ++ str "0.000000000000e+00"
  | S754_finite s m e =>
      let '(num, den) := ratio_of_finite m e in
      let '(n, k) := sci_digits num den in
      fmt_sign s ++ fixed_digits 1 (n / 10 ^ 12) ++ "."%char
        :: fixed_digits 12 n ++ "e"%char :: fmt_exp k
  end.

(** ['{:.5f}'.format(x)]. *)
Definition fmt_5f (x : float) : pystr :=
  match Prim2SF x with
  | S754_nan => str "nan"
  | S754_infinity s => fmt_sign s ++ str "inf"
  | S754_zero s => fmt_sign s ++ str "0.00000"
  | S754_finite s m e =>
      let '(num, den) := ratio_of_finite m e in
      let n := round_half_even (num * 10 ^ 5) den in
      fmt_sign s ++ str_of_Z (n / 10 ^ 5) ++ "."%char :: fixed_digits 5 n
  end.

(** [numpy.rint]: the nearest integer, ties to even. *)
Definition rint (x : float) : float :=
  let a := abs x in
  if (a <? 4503599627370496)%float then
    let r := ((a + 4503599627370496) - 4503599627370496)%float in
    if get_sign x then (- r)%float else r
  else x.

(** [numpy.around(x, 12)]: scale by [10 ^ 12], round to an integer and
    scale back, all in binary64. *)
Definition around12 (x : float) : float :=
  (rint (x * 1e12) / 1e12)%float.

(** ** Monadic loops *)

(** A [for] loop that threads a state and stops at the first exception. *)
Fixpoint foldM {S A} (f : S -> A -> result S) (st : S) (l : list A)
  : result S :=
  match l with
  | [] => Ok st
  | x :: l' => st' ← f st x; foldM f st' l'
  end.

(** A [for] loop that collects one value per iteration. *)
Fixpoint forM {A B} (f : A -> result B) (l : list A) : result (list B) :=
  match l with
  | [] => Ok []
  | x :: l' => y ← f x; ys ← forM f l'; Ok (y :: ys)
  end.

Definition line (s : pystr) : pystr := s ++ [newline].

(** ** Unit constants *)

#[warnings="-inexact-float"] Definition CONST_pc : float := 3.0856775807e18%float.
Definition UNIT_LENGTH : float := CONST_pc.
Definition UNIT_VELOCITY : float := 1.0e5%float.
Definition UNIT_TIME : float := (UNIT_LENGTH / UNIT_VELOCITY)%float.
(** [365 * 24 * 3600] is the integer 31536000, exact as a float. *)
Definition time2yrs : float := (UNIT_TIME / 31536000)%float.

(** ** Grid codec *)

Inductive dim : Set := X1 | X2 | X3.

#[global] Instance dim_eq_dec : EqDecision dim.
Proof. solve_decision. Defined.

Definition keys : list dim := [X1; X2; X3].

Definition dim_name (d : dim) : pystr :=
  match d with
  | X1 => str "x1"
  | X2 => str "x2"
  | X3 => str "x3"
  end.

(** The dictionary [{'x1': ..., 'x2': ..., 'x3': ...}] of cell centres. *)
Record grid : Type := Grid {
  x1 : list float;
  x2 : list float;
  x3 : list float
}.

Definition getaxis (g : grid) (d : dim) : list float :=
  match d with
  | X1 => x1 g
  | X2 => x2 g
  | X3 => x3 g
  end.

Definition process_grid_line (ln : pystr) : result float :=
  let items := split ln in
  if bool_decide (length items = 5%nat) then
    s ← getitem items 2; py_float s
  else
    a ← getitem items 1;
    x ← py_float a;
    b ← getitem items 2;
    y ← py_float b;
    Ok ((x + y) / 2)%float.

(** The inner loop of [read_grid]: [n] data lines taken from the line
    iterator; the remaining lines are returned with the values. *)
Fixpoint read_points (n : nat) (lines : list pystr)
  : result (list float * list pystr) :=
  match n with
  | O => Ok ([], lines)
  | S n' =>
      match lines with
      | [] => Err StopIteration
      | h :: t =>
          v ← process_grid_line h;
          '(vs, rest) ← read_points n' t;
          Ok (v :: vs, rest)
      end
  end.

(** One iteration of the loop over the three axes: the count line, the
    allocation of the array (which refuses a negative size) and the data
    lines.  The array of a non-negative size is taken to be allocated: a
    count beyond the memory of the machine is outside the model. *)
Definition read_axis (lines : list pystr)
  : result (list float * list pystr) :=
  match lines with
  | [] => Err StopIteration
  | h :: t =>
      npoints ← py_int h;
      if npoints <? 0 then Err ValueError
      else read_points (Z.to_nat npoints) t
  end.

Definition read_grid (file : pystr) : result grid :=
  let lines := dropwhile (startswith "#"%char) (file_lines file) in
  '(a1, l1) ← read_axis lines;
  '(a2, l2) ← read_axis l1;
  '(a3, _) ← read_axis l2;
  Ok (Grid a1 a2 a3).

(** [sum(arr.size > 1 for arr in grid.values())]. *)
Definition count_active (g : grid) : nat :=
  length (List.filter (fun a => 1 <? length a)%nat (map (getaxis g) keys)).

Definition banner : pystr :=
  line (str "# ******************************************************").

(** [grid[dim][-1]]. *)
Definition getlast {A} (l : list A) : result A :=
  match last l with
  | Some x => Ok x
  | None => Err IndexError
  end.

(** The text of a descriptor line: the axis, its first and last centre
    and its number of points. *)
Definition axis_descriptor (d : dim) (xmin xmax : float) (nx : nat)
  : pystr :=
  line (str "# " ++ upper (dim_name d) ++ str " [" ++ fmt_5f xmin
        ++ str ",  " ++ fmt_5f xmax ++ str "], "
        ++ str_of_Z (Z.of_nat nx) ++ str " point(s), 3 ghosts").

(** The descriptor line written for [dim] in the header. *)
Definition header_axis (g : grid) (d : dim) : result pystr :=
  let nx := length (getaxis g d) in
  xmin ← getitem (getaxis g d) 0;
  xmax ← getlast (getaxis g d);
  Ok (axis_descriptor d xmin xmax nx).

Definition dimensions_line (ndim : nat) : pystr :=
  line (str "# DIMENSIONS: " ++ str_of_Z (Z.of_nat ndim)).

Definition geometry_line (geometry : pystr) : pystr :=
  line (str "# GEOMETRY:   " ++ upper geometry).

(** The lines of the header, in the order they are written. *)
Definition header_lines (g : grid) (geometry : pystr)
  : result (list pystr) :=
  let ndim := count_active g in
  axes ← forM (fun i => d ← getitem keys i; header_axis g d) (seq 0 ndim);
  Ok ([banner;
       line (str "# PLUTO 4.2 Grid File");
       line (str "# Generated on  Mon Jul 10 10:10:10 2017");
       line (str "#");
       dimensions_line ndim;
       geometry_line geometry]
      ++ axes ++ [banner]).

(** The content of the file after [write_grid_header]. *)
Definition write_grid_header (g : grid) (geometry : pystr) : result pystr :=
  ls ← header_lines g geometry; Ok (concat ls).

(** The left and right cell edges of an axis.  The placeholder edges of
    an axis without a second point are the integers 0 and 1, which the
    format [.12e] prints as the floats of the same value. *)
Definition axis_edges (a : list float) : result (list float * list float) :=
  if (1 <? length a)%nat then
    c1 ← getitem a 1;
    c0 ← getitem a 0;
    let dx := (c1 - c0)%float in
    Ok (map (fun c => (around12 (c - dx / 2) + 0)%float) a,
        map (fun c => (around12 (c + dx / 2) + 0)%float) a)
  else Ok ([0%float], [1%float]).

(** One data row, for the row index [i] counted from 0. *)
Definition grid_row (pluto4 : bool) (i : nat) (L R : float) : pystr :=
  if pluto4 then
    line (space :: str_of_Z (Z.of_nat i + 1) ++ tab :: fmt_12e L
          ++ tab :: fmt_12e R)
  else
    line (space :: str_of_Z (Z.of_nat i + 1) ++ tab :: fmt_12e L
          ++ tab :: fmt_12e (0.5 * (R + L))%float
          ++ tab :: fmt_12e R ++ tab :: fmt_12e (R - L)%float).

(** The lines appended for one axis: the count and the rows. *)
Definition axis_lines (pluto4 : bool) (a : list float)
  : result (list pystr) :=
  let npoints := length a in
  '(lefts, rights) ← axis_edges a;
  rows ← forM (fun i => L ← getitem lefts i; R ← getitem rights i;
                        Ok (grid_row pluto4 i L R)) (seq 0 npoints);
  Ok (line (str_of_Z (Z.of_nat npoints)) :: rows).

(** The content of the file after [write_grid]. *)
Definition write_grid (g : grid) (pluto4 : bool) (geometry : pystr)
  : result pystr :=
  header ← (if pluto4 then write_grid_header g geometry else Ok []);
  blocks ← forM (fun d => axis_lines pluto4 (getaxis g d)) keys;
  Ok (header ++ concat (concat blocks)).

(** ** Output log reader *)

Record payload : Type := Payload {
  time : float;
  _time : float;
  _output : pystr;
  vars : list pystr
}.

(** The body of the loop over the lines of the catalog. *)
Definition read_output_line (ln : pystr) : result (Z * payload) :=
  let items := split ln in
  s0 ← getitem items 0;
  nfile ← py_int s0;
  s1 ← getitem items 1;
  t ← py_float s1;
  output_format ← getitem items 4;
  let variables := drop 6 items in
  Ok (nfile, {| time := (t * time2yrs)%float; _time := t;
                _output := output_format; vars := variables |}).

Definition read_output_log (file : pystr) : result (gmap Z payload) :=
  foldM (fun data ln => '(nfile, p) ← read_output_line ln;
                        Ok (<[nfile := p]> data))
        ∅ (file_lines file).

(** ** Configuration codec *)

(** An [OrderedDict] with string keys: the items in insertion order,
    each key once. *)
Abbreviation odict V := (list (pystr * V)).

Fixpoint od_get {V} (k : pystr) (d : odict V) : option V :=
  match d with
  | [] => None
  | (k', v) :: d' => if decide (k' = k) then Some v else od_get k d'
  end.

(** [d[k] = v]: an existing key keeps its position, a new key goes last. *)
Fixpoint od_set {V} (k : pystr) (v : V) (d : odict V) : odict V :=
  match d with
  | [] => [(k, v)]
  | (k', v') :: d' =>
      if decide (k' = k) then (k, v) :: d' else (k', v') :: od_set k v d'
  end.

Definition od_keys {V} (d : odict V) : list pystr := map fst d.

Abbreviation config := (odict (odict pystr)).

(** The state of the loop of [read_config]: the document built so far and
    the local variable [section], unbound until the first header. *)
Abbreviation config_state := (config * option pystr)%type.

Definition is_header (ln : pystr) : bool :=
  startswith "["%char ln && endswith "]"%char ln.

Definition header_name (ln : pystr) : pystr :=
  rstrip_chars ["]"%char] (lstrip_chars ["["%char] ln).

(** The body of the loop of [read_config]. *)
Definition config_step (st : config_state) (raw : pystr)
  : result config_state :=
  let '(data, section) := st in
  let ln := strip raw in
  if is_header ln then
    let s := header_name ln in
    Ok (od_set s [] data, Some s)
  else if bool_decide (ln = []) then Ok st
  else
    match split_space1 ln with
    | [key; val] =>
        match section with
        | None => Err NameError
        | Some s =>
            match od_get s data with
            | None => Err KeyError
            | Some m => Ok (od_set s (od_set key (strip val) m) data, section)
            end
        end
    | _ => Err ValueError
    end.

Definition read_config_lines (lines : list pystr) : result config_state :=
  foldM config_step ([], None) lines.

Definition read_config (file : pystr) : result config :=
  st ← read_config_lines (file_lines file); Ok st.1.

Definition config_item (kv : pystr * pystr) : pystr :=
  line (ljust 25 kv.1 ++ kv.2).

Definition config_section (sec : pystr * odict pystr) : list pystr :=
  [line ("["%char :: sec.1 ++ ["]"%char]); line []]
  ++ map config_item sec.2 ++ [line []].

(** The lines written by [write_config], and the file they make. *)
Definition config_lines (data : config) : list pystr :=
  concat (map config_section data).

Definition write_config (data : config) : pystr :=
  concat (config_lines data).

(** * Properties *)

(** ** Results and loops *)

Section Results.
Context {A B : Type}.

Lemma bind_Ok (f : A -> result B) (a : A) : (x ← Ok a; f x) = f a.
Proof. reflexivity. Qed.

Lemma bind_Err (f : A -> result B) (e : exn) : (x ← Err e; f x) = Err e.
Proof. reflexivity. Qed.

Lemma bind_Ok_inv (f : A -> result B) (r : result A) (b : B) :
  (x ← r; f x) = Ok b -> exists a, r = Ok a /\ f a = Ok b.
Proof. destruct r as [a|e]; [eauto | discriminate]. Qed.

Lemma getitem_Ok (l : list A) (i : nat) (x : A) :
  l !! i = Some x -> getitem l i = Ok x.
Proof. unfold getitem. now intros ->. Qed.

Lemma getitem_short (l : list A) (i : nat) :
  (length l <= i)%nat -> getitem l i = Err IndexError.
Proof. intros H. unfold getitem. now rewrite lookup_ge_None_2. Qed.
End Results.

(** The exceptions a malformed text line can raise. *)
Definition format_error (e : exn) : Prop := e = IndexError \/ e = ValueError.

Lemma py_int_error (s : pystr) (e : exn) : py_int s = Err e -> e = ValueError.
Proof.
  unfold py_int. destruct (strip_number s) as [|c r].
  - simpl. congruence.
  - repeat case_bool_decide;
      (destruct (ungroup _ _); [|congruence]);
      destruct (NilZero.uint_of_string _); congruence.
Qed.

Lemma float_literal_error (t : pystr) (e : exn) :
  float_literal t = Err e -> e = ValueError.
Proof.
  unfold float_literal.
  destruct (take_sign t) as [neg u].
  repeat case_bool_decide; try discriminate.
  destruct (dropwhile isdecimal u) as [|c r].
  - destruct (takewhile isdecimal u ++ []); congruence.
  - destruct (if bool_decide (c = "."%char) then _ else _) as [fp r2].
    destruct (takewhile isdecimal u ++ fp); [congruence|].
    destruct r2 as [|c' r3]; [discriminate|].
    case_bool_decide; [|congruence].
    destruct (take_sign r3) as [eneg [|]]; [congruence|].
    destruct (forallb isdecimal _); congruence.
Qed.

Lemma py_float_error (s : pystr) (e : exn) :
  py_float s = Err e -> e = ValueError.
Proof.
  unfold py_float. destruct (ungroup _ _); [|congruence].
  apply float_literal_error.
Qed.

(** ** C1, C9: line-to-scalar conversion *)

(** The value the current-format branch computes from the two edges. *)
Definition midpoint_of (f2 f3 : pystr) : result float :=
  a ← py_float f2; b ← py_float f3; Ok ((a + b) / 2)%float.

Lemma process_grid_line_5 (ln f1 f2 f3 f4 f5 : pystr) :
  split ln = [f1; f2; f3; f4; f5] -> process_grid_line ln = py_float f3.
Proof.
  intros H. unfold process_grid_line. rewrite H. simpl.
  now destruct (py_float f3).
Qed.

Lemma process_grid_line_not5 (ln f1 f2 f3 : pystr) (rest : list pystr) :
  split ln = f1 :: f2 :: f3 :: rest -> length rest <> 2%nat ->
  process_grid_line ln = midpoint_of f2 f3.
Proof.
  intros H Hr. unfold process_grid_line, midpoint_of. rewrite H.
  rewrite bool_decide_eq_false_2 by (simpl; lia).
  simpl. destruct (py_float f2); [|reflexivity].
  simpl. now destruct (py_float f3).
Qed.

(** C1. A data line with exactly five fields converts to the number read
    from its third field; a data line with exactly three fields converts
    to the midpoint [(field2 + field3) / 2] of the numbers read from its
    second and third fields. *)
Theorem process_grid_line_fields (ln : pystr) :
  (forall f1 f2 f3 f4 f5 v,
      split ln = [f1; f2; f3; f4; f5] -> py_float f3 = Ok v ->
      process_grid_line ln = Ok v) /\
  (forall f1 f2 f3 a b,
      split ln = [f1; f2; f3] -> py_float f2 = Ok a -> py_float f3 = Ok b ->
      process_grid_line ln = Ok ((a + b) / 2)%float).
Proof.
  split.
  - intros f1 f2 f3 f4 f5 v H Hv.
    now rewrite (process_grid_line_5 _ _ _ _ _ _ H).
  - intros f1 f2 f3 a b H Ha Hb.
    rewrite (process_grid_line_not5 _ _ _ _ _ H) by (simpl; lia).
    unfold midpoint_of. now rewrite Ha, Hb.
Qed.

Definition legacy_row_example : pystr :=
  line (space :: str "7" ++ tab :: str "3.0e+00" ++ tab :: str "3.25e+00"
        ++ tab :: str "3.5e+00" ++ tab :: str "5.0e-01").

Definition current_row_example : pystr :=
  line (space :: str "7" ++ tab :: str "3.0e+00" ++ tab :: str "3.5e+00").

Lemma process_grid_line_fields_witness :
  process_grid_line legacy_row_example = Ok 3.25%float /\
  process_grid_line current_row_example = Ok ((3 + 3.5) / 2)%float.
Proof.
  split.
  - apply (proj1 (process_grid_line_fields legacy_row_example)
             (str "7") (str "3.0e+00") (str "3.25e+00") (str "3.5e+00")
             (str "5.0e-01")); vm_compute; reflexivity.
  - apply (proj2 (process_grid_line_fields current_row_example)
             (str "7") (str "3.0e+00") (str "3.5e+00"));
      vm_compute; reflexivity.
Defined.

(** A data line with four fields, neither of the two layouts. *)
Definition four_field_row : pystr :=
  line (space :: str "1" ++ tab :: str "0.0" ++ tab :: str "1.0"
        ++ tab :: str "2.0").

(** C9, as stated, fails: a line with four fields raises nothing and
    converts to the midpoint of its second and third fields. *)
Lemma four_fields_not_rejected :
  length (split four_field_row) = 4%nat /\
  process_grid_line four_field_row = Ok 0.5%float.
Proof. split; vm_compute; reflexivity. Qed.

(** C9, amended. A data line whose field count is not 5 is handled by the
    current-format branch whatever the count: with three or more fields it
    converts to the midpoint of the second and third fields, exactly as a
    three-field line does; only with fewer than three fields does the
    conversion fail, with an index or value error. *)
Theorem process_grid_line_other_counts (ln : pystr) :
  length (split ln) <> 5%nat ->
  (forall f1 f2 f3 rest,
      split ln = f1 :: f2 :: f3 :: rest ->
      process_grid_line ln = midpoint_of f2 f3) /\
  ((length (split ln) < 3)%nat ->
   exists e, process_grid_line ln = Err e /\ format_error e).
Proof.
  intros Hn. split.
  - intros f1 f2 f3 rest H. apply (process_grid_line_not5 _ _ _ _ _ H).
    rewrite H in Hn. simpl in Hn. lia.
  - intros Hlt. unfold process_grid_line, format_error.
    rewrite bool_decide_eq_false_2 by assumption.
    destruct (split ln) as [|f1 [|f2 [|f3 rest]]]; simpl in *; [eauto..|lia].
    destruct (py_float f2) eqn:E; simpl; eauto.
    apply py_float_error in E. subst. eauto.
Qed.

Lemma process_grid_line_other_counts_witness :
  length (split four_field_row) <> 5%nat /\
  process_grid_line four_field_row = midpoint_of (str "0.0") (str "1.0").
Proof.
  assert (H : length (split four_field_row) <> 5%nat)
    by (vm_compute; discriminate).
  split; [exact H|].
  apply (proj1 (process_grid_line_other_counts four_field_row H)
           (str "1") (str "0.0") (str "1.0") [str "2.0"]).
  vm_compute; reflexivity.
Defined.

(** ** C7, C8: the output log reader *)

Section Loops.
Context {S A : Type} (f : S -> A -> result S).

Lemma foldM_cons (st : S) (x : A) (l : list A) :
  foldM f st (x :: l) = (st' ← f st x; foldM f st' l).
Proof. reflexivity. Qed.

Lemma foldM_app (st : S) (l1 l2 : list A) :
  foldM f st (l1 ++ l2) = (st' ← foldM f st l1; foldM f st' l2).
Proof.
  revert st. induction l1 as [|x l1 IH]; intros st; simpl; [reflexivity|].
  destruct (f st x); simpl; [apply IH | reflexivity].
Qed.

(** A line that fails in every state makes the whole loop fail. *)
Lemma foldM_failing_item (st : S) (l : list A) (x : A) :
  x ∈ l -> (forall s, exists e, f s x = Err e) ->
  exists e, foldM f st l = Err e.
Proof.
  intros Hin Hx. revert st.
  induction l as [|y l IH]; intros st; [inversion Hin|].
  simpl. destruct (f st y) as [s'|e] eqn:E; simpl; [|eauto].
  apply elem_of_cons in Hin as [->|Hin]; [|now apply IH].
  destruct (Hx st) as [e He]. congruence.
Qed.

(** The loop raises only what its body raises. *)
Lemma foldM_error (P : exn -> Prop) (st : S) (l : list A) (e : exn) :
  (forall s x e', f s x = Err e' -> P e') -> foldM f st l = Err e -> P e.
Proof.
  intros HP. revert st.
  induction l as [|y l IH]; intros st; simpl; [discriminate|].
  destruct (f st y) as [s'|e'] eqn:E; simpl; [apply IH|].
  intros [= <-]. eauto.
Qed.
End Loops.

Lemma read_output_line_error (ln : pystr) (e : exn) :
  read_output_line ln = Err e -> format_error e.
Proof.
  unfold read_output_line, getitem, format_error.
  destruct (split ln !! 0%nat); simpl; [|intros [= <-]; auto].
  destruct (py_int _) eqn:E1; simpl;
    [|intros [= <-]; apply py_int_error in E1; auto].
  destruct (split ln !! 1%nat); simpl; [|intros [= <-]; auto].
  destruct (py_float _) eqn:E2; simpl;
    [|intros [= <-]; apply py_float_error in E2; auto].
  destruct (split ln !! 4%nat); simpl; [discriminate|intros [= <-]; auto].
Qed.

Lemma read_output_line_short (ln : pystr) :
  (length (split ln) < 5)%nat -> exists e, read_output_line ln = Err e.
Proof.
  intros H. unfold read_output_line.
  destruct (getitem (split ln) 0); simpl; [|eauto].
  destruct (py_int _); simpl; [|eauto].
  destruct (getitem (split ln) 1); simpl; [|eauto].
  destruct (py_float _); simpl; [|eauto].
  rewrite getitem_short by lia. simpl. eauto.
Qed.

(** A catalog of one line with five fields. *)
Definition five_field_catalog : pystr :=
  line (str "3 12.5 0.0 100 dbl").

(** C7, as stated, fails: a line with five fields (fewer than seven) is
    read without error, with an empty variable list. *)
Lemma five_fields_accepted :
  (exists ln, ln ∈ file_lines five_field_catalog
              /\ (length (split ln) < 7)%nat) /\
  read_output_log five_field_catalog
  = Ok {[ 3 := {| time := (12.5 * time2yrs)%float; _time := 12.5%float;
                  _output := str "dbl"; vars := [] |} ]}.
Proof.
  split; [|vm_compute; reflexivity].
  exists five_field_catalog. split; [|vm_compute; lia].
  vm_compute. apply list_elem_of_here.
Qed.

(** C7, amended. A catalog file with a line of fewer than five fields is
    not read: the reader fails with an index or value error.  Five fields
    are enough, the slice [items[6:]] of a shorter list being empty. *)
Theorem read_output_log_short_line (file ln : pystr) :
  ln ∈ file_lines file -> (length (split ln) < 5)%nat ->
  exists e, read_output_log file = Err e /\ format_error e.
Proof.
  intros Hin Hlen. unfold read_output_log.
  destruct (foldM_failing_item
              (fun data l => '(nfile, p) ← read_output_line l;
                             Ok (<[nfile := p]> data))
              (∅ : gmap Z payload) (file_lines file) ln Hin) as [e He].
  - intros s. destruct (read_output_line_short ln Hlen) as [e He].
    exists e. now rewrite He.
  - exists e. split; [exact He|].
    eapply foldM_error; [|exact He].
    intros s x e'. simpl.
    destruct (read_output_line x) as [[k p]|e''] eqn:E; simpl;
      [discriminate|].
    intros [= <-]. eapply read_output_line_error, E.
Qed.

Definition four_field_catalog : pystr :=
  line (str "0 0.0 1e-4 0 dbl 0 rho vx1") ++ line (str "1 0.5 1e-4 17").

Lemma read_output_log_short_line_witness :
  exists e, read_output_log four_field_catalog = Err e /\ format_error e.
Proof.
  apply (read_output_log_short_line four_field_catalog
           (line (str "1 0.5 1e-4 17"))).
  - vm_compute. apply list_elem_of_further, list_elem_of_here.
  - vm_compute. lia.
Defined.

(** The record a catalog line describes: the integer of field 0 is the
    key; the record holds the time of field 1, that time in years, the
    label of field 4 and the fields from 6 onwards. *)
Definition line_record (ln : pystr) (k : Z) (p : payload) : Prop :=
  exists f0 f1 f2 f3 f4 f5 vs t,
    split ln = f0 :: f1 :: f2 :: f3 :: f4 :: f5 :: vs
    /\ py_int f0 = Ok k /\ py_float f1 = Ok t
    /\ p = {| time := (t * time2yrs)%float; _time := t;
              _output := f4; vars := vs |}.

Lemma line_record_read (ln : pystr) (k : Z) (p : payload) :
  line_record ln k p -> read_output_line ln = Ok (k, p).
Proof.
  intros (f0 & f1 & f2 & f3 & f4 & f5 & vs & t & Hs & Hk & Ht & ->).
  unfold read_output_line. rewrite Hs. simpl.
  rewrite Hk. simpl. rewrite Ht. reflexivity.
Qed.

Lemma line_record_inj (ln : pystr) (k k' : Z) (p p' : payload) :
  line_record ln k p -> line_record ln k' p' -> k = k' /\ p = p'.
Proof.
  intros H H'. apply line_record_read in H, H'.
  rewrite H in H'. now inversion H'.
Qed.

(** The loop from any starting dictionary: a key ends up with the record
    of the last line that carries it, or keeps its starting value when no
    line carries it. *)
Lemma read_output_loop (lines : list pystr) (data0 : gmap Z payload) :
  (forall ln, ln ∈ lines -> exists k p, line_record ln k p) ->
  exists data,
    foldM (fun data ln => '(nfile, p) ← read_output_line ln;
                          Ok (<[nfile := p]> data)) data0 lines = Ok data
    /\ forall k p,
        data !! k = Some p <->
        (exists pre ln post,
            lines = pre ++ ln :: post /\ line_record ln k p
            /\ forall ln' p', ln' ∈ post -> ~ line_record ln' k p')
        \/ (data0 !! k = Some p
            /\ forall ln' p', ln' ∈ lines -> ~ line_record ln' k p').
Proof.
  revert data0. induction lines as [|ln lines IH]; intros data0 Hwf.
  - exists data0. split; [reflexivity|]. intros k p. split.
    + intros H. right. split; [exact H|]. intros ln' p' Hin. inversion Hin.
    + intros [(pre & ln & post & H & _)|[H _]]; [|exact H].
      now destruct pre.
  - destruct (Hwf ln) as (k0 & p0 & Hrec); [apply list_elem_of_here|].
    destruct (IH (<[k0 := p0]> data0)) as (data & Hrun & Hdata).
    { intros l Hl. apply Hwf. now apply list_elem_of_further. }
    exists data. split.
    { simpl. rewrite (line_record_read _ _ _ Hrec). exact Hrun. }
    intros k p. rewrite Hdata. split.
    + intros [(pre & l & post & -> & Hl & Hpost)|[Hk Hnone]].
      * left. exists (ln :: pre), l, post. auto.
      * destruct (decide (k0 = k)) as [->|Hne].
        -- rewrite lookup_insert_eq in Hk. injection Hk as ->.
           left. exists [], ln, lines. auto.
        -- rewrite lookup_insert_ne in Hk by assumption.
           right. split; [exact Hk|].
           intros ln' p' [->|Hin]%elem_of_cons; [|now apply Hnone].
           intros H'. destruct (line_record_inj _ _ _ _ _ Hrec H'). auto.
    + intros [(pre & l & post & Heq & Hl & Hpost)|[Hk Hnone]].
      * destruct pre as [|x pre]; simpl in Heq; injection Heq as <- ->.
        -- destruct (line_record_inj _ _ _ _ _ Hrec Hl) as [-> ->].
           right. split; [apply lookup_insert_eq | exact Hpost].
        -- left. exists pre, l, post. auto.
      * right. split.
        -- rewrite lookup_insert_ne; [exact Hk|].
           intros ->. apply (Hnone ln p0); [apply list_elem_of_here|].
           exact Hrec.
        -- intros ln' p' Hin. apply Hnone. now apply list_elem_of_further.
Qed.

(** C8. For a well-formed catalog (every line has its index, time and
    label fields and they parse), [read_output_log] returns a dictionary
    keyed by the integer of field 0; the record under a key holds the raw
    time of field 1, that time multiplied by [time2yrs], the label of
    field 4 and the variables from field 6 onwards, and it is the record
    of the last line carrying that key. *)
Theorem read_output_log_records (file : pystr) :
  (forall ln, ln ∈ file_lines file -> exists k p, line_record ln k p) ->
  exists data,
    read_output_log file = Ok data
    /\ forall k p,
        data !! k = Some p <->
        exists pre ln post,
          file_lines file = pre ++ ln :: post /\ line_record ln k p
          /\ forall ln' p', ln' ∈ post -> ~ line_record ln' k p'.
Proof.
  intros Hwf.
  destruct (read_output_loop (file_lines file) ∅ Hwf) as (data & Hrun & H).
  exists data. split; [exact Hrun|].
  intros k p. rewrite H. split; [|auto].
  intros [H'|[H' _]]; [exact H'|]. now rewrite lookup_empty in H'.
Qed.

Lemma read_line_record (ln : pystr) (k : Z) (p : payload) :
  read_output_line ln = Ok (k, p) -> (6 <= length (split ln))%nat ->
  line_record ln k p.
Proof.
  unfold read_output_line, line_record. intros H Hlen.
  destruct (split ln) as [|f0 [|f1 [|f2 [|f3 [|f4 [|f5 vs]]]]]];
    simpl in Hlen; try lia.
  simpl in H.
  destruct (py_int f0) as [k'|] eqn:Hk; simpl in H; [|discriminate].
  destruct (py_float f1) as [t|] eqn:Ht; simpl in H; [|discriminate].
  injection H as <- <-. now exists f0, f1, f2, f3, f4, f5, vs, t.
Qed.

(** Two records under the index 3; the later one stays. *)
Definition catalog_example : pystr :=
  line (str "3 12.5 0.0 100 dbl 0 rho vx1 vx2")
  ++ line (str "3 13.0 0.0 104 flt 0 prs").

Lemma read_output_log_records_witness :
  exists data,
    read_output_log catalog_example = Ok data
    /\ forall k p,
        data !! k = Some p <->
        exists pre ln post,
          file_lines catalog_example = pre ++ ln :: post
          /\ line_record ln k p
          /\ forall ln' p', ln' ∈ post -> ~ line_record ln' k p'.
Proof.
  apply (read_output_log_records catalog_example).
  intros ln Hin. apply list_elem_of_In in Hin.
  vm_compute in Hin. destruct Hin as [<-|[<-|[]]].
  - exists 3, {| time := (12.5 * time2yrs)%float; _time := 12.5%float;
                 _output := str "dbl";
                 vars := [str "rho"; str "vx1"; str "vx2"] |}.
    apply read_line_record; vm_compute; [reflexivity | lia].
  - exists 3, {| time := (13.0 * time2yrs)%float; _time := 13.0%float;
                 _output := str "flt"; vars := [str "prs"] |}.
    apply read_line_record; vm_compute; [reflexivity | lia].
Defined.

(** ** Trimming and splitting *)

Section Trimming.
Context {A : Type} (p : A -> bool).

Lemma dropwhile_all (l : list A) : forallb p l = true -> dropwhile p l = [].
Proof.
  induction l as [|x l IH]; simpl; [reflexivity|].
  destruct (p x); simpl; [exact IH | discriminate].
Qed.

Lemma dropwhile_stop (l : list A) (x : A) :
  p x = false -> dropwhile p (x :: l) = x :: l.
Proof. simpl. now intros ->. Qed.

Lemma dropwhile_skip (l : list A) (x : A) :
  p x = true -> dropwhile p (x :: l) = dropwhile p l.
Proof. simpl. now intros ->. Qed.

Lemma dropwhile_app_stop (l1 l2 : list A) (x : A) :
  forallb p l1 = true -> p x = false ->
  dropwhile p (l1 ++ x :: l2) = x :: l2.
Proof.
  intros H Hx. induction l1 as [|y l1 IH]; simpl in *.
  - now rewrite Hx.
  - apply andb_true_iff in H as [-> H]. auto.
Qed.

Lemma dropwhile_head (l : list A) (c : A) :
  head (dropwhile p l) = Some c -> p c = false.
Proof.
  induction l as [|x l IH]; simpl; [discriminate|].
  destruct (p x) eqn:E; [exact IH|]. simpl. congruence.
Qed.

Lemma dropwhile_suffix (l : list A) :
  exists pre, l = pre ++ dropwhile p l /\ forallb p pre = true.
Proof.
  induction l as [|x l (pre & Hl & Hp)]; simpl.
  - now exists [].
  - destruct (p x) eqn:E.
    + exists (x :: pre). simpl. rewrite E, Hp. now rewrite <- Hl.
    + now exists [].
Qed.

Lemma dropwhile_snoc (l : list A) (x : A) :
  dropwhile p (l ++ [x])
  = if forallb p l then dropwhile p [x] else dropwhile p l ++ [x].
Proof.
  induction l as [|y l IH]; simpl; [reflexivity|].
  destruct (p y); simpl; [exact IH | reflexivity].
Qed.

Lemma takewhile_dropwhile (l : list A) :
  takewhile p l ++ dropwhile p l = l.
Proof.
  induction l as [|x l IH]; simpl; [reflexivity|].
  destruct (p x); simpl; [now rewrite IH | reflexivity].
Qed.

Lemma takewhile_all (l : list A) : forallb p (takewhile p l) = true.
Proof.
  induction l as [|x l IH]; simpl; [reflexivity|].
  destruct (p x) eqn:E; simpl; [now rewrite E | reflexivity].
Qed.

Lemma takewhile_app_stop (l1 l2 : list A) (x : A) :
  forallb p l1 = true -> p x = false ->
  takewhile p (l1 ++ x :: l2) = l1.
Proof.
  intros H Hx. induction l1 as [|y l1 IH]; simpl in *.
  - now rewrite Hx.
  - apply andb_true_iff in H as [-> H]. now rewrite IH.
Qed.

Lemma takewhile_whole (l : list A) :
  forallb p l = true -> takewhile p l = l.
Proof.
  induction l as [|x l IH]; simpl; [reflexivity|].
  destruct (p x); simpl; [intros H; now rewrite IH | discriminate].
Qed.
End Trimming.

Section Rstrip.
Context (p : ascii -> bool).

Lemma rstrip_with_nil : rstrip_with p [] = [].
Proof. reflexivity. Qed.

Lemma rstrip_with_snoc (s : pystr) (c : ascii) :
  rstrip_with p (s ++ [c]) = if p c then rstrip_with p s else s ++ [c].
Proof.
  unfold rstrip_with. rewrite rev_app_distr. simpl.
  destruct (p c); [reflexivity|].
  simpl. now rewrite rev_involutive.
Qed.

Lemma rstrip_with_last (s : pystr) (c : ascii) :
  last (rstrip_with p s) = Some c -> p c = false.
Proof.
  induction s as [|x s IH] using rev_ind; [discriminate|].
  rewrite rstrip_with_snoc. destruct (p x) eqn:E; [exact IH|].
  rewrite last_snoc. congruence.
Qed.

Lemma rstrip_with_prefix (s : pystr) :
  exists suf, s = rstrip_with p s ++ suf /\ forallb p suf = true.
Proof.
  induction s as [|x s (suf & Hs & Hp)] using rev_ind.
  - now exists [].
  - rewrite rstrip_with_snoc. destruct (p x) eqn:E.
    + exists (suf ++ [x]). rewrite app_assoc, <- Hs. split; [reflexivity|].
      rewrite forallb_app, Hp. simpl. now rewrite E.
    + exists []. now rewrite app_nil_r.
Qed.

Lemma rstrip_with_id (s : pystr) :
  (forall c, last s = Some c -> p c = false) -> rstrip_with p s = s.
Proof.
  destruct s as [|x s _] using rev_ind; [reflexivity|].
  intros H. rewrite rstrip_with_snoc, (H x); [reflexivity|].
  apply last_snoc.
Qed.
End Rstrip.

(** A string without white space at either end. *)
Definition trimmed (s : pystr) : Prop :=
  (forall c, head s = Some c -> isspace c = false)
  /\ (forall c, last s = Some c -> isspace c = false).

Lemma head_prefix_of {A} (l l' : list A) (x : A) :
  l' ≠ [] -> (exists suf, l = l' ++ suf) -> head l' = Some x ->
  head l = Some x.
Proof. intros _ [suf ->]. destruct l'; simpl; congruence. Qed.

Lemma strip_trimmed (s : pystr) : trimmed (strip s).
Proof.
  unfold strip, lstrip_with. split; intros c Hc.
  - destruct (rstrip_with_prefix isspace (dropwhile isspace s))
      as (suf & Hs & _).
    apply (dropwhile_head isspace s). rewrite Hs.
    destruct (rstrip_with isspace (dropwhile isspace s)); simpl in *;
      [discriminate | exact Hc].
  - eapply rstrip_with_last, Hc.
Qed.

Lemma strip_id (s : pystr) : trimmed s -> strip s = s.
Proof.
  intros [Hh Hl]. unfold strip, lstrip_with.
  assert (dropwhile isspace s = s) as ->.
  { destruct s as [|x s]; [reflexivity|].
    apply dropwhile_stop, Hh. reflexivity. }
  now apply rstrip_with_id.
Qed.

Lemma strip_snoc_space (s : pystr) (c : ascii) :
  isspace c = true -> strip (s ++ [c]) = strip s.
Proof.
  intros Hc. unfold strip, lstrip_with.
  rewrite dropwhile_snoc. destruct (forallb isspace s) eqn:E.
  - simpl. rewrite Hc. now rewrite dropwhile_all.
  - rewrite rstrip_with_snoc. now rewrite Hc.
Qed.

Lemma strip_line (s : pystr) : strip (line s) = strip s.
Proof. apply strip_snoc_space. reflexivity. Qed.

(** Trimming only removes characters. *)
Lemma strip_infix (s : pystr) : exists pre suf, s = pre ++ strip s ++ suf.
Proof.
  unfold strip, lstrip_with.
  destruct (dropwhile_suffix isspace s) as (pre & Hs & _).
  destruct (rstrip_with_prefix isspace (dropwhile isspace s))
    as (suf & Hd & _).
  exists pre, suf. now rewrite <- Hd.
Qed.

Lemma strip_elem (s : pystr) (c : ascii) : c ∈ strip s -> c ∈ s.
Proof.
  destruct (strip_infix s) as (pre & suf & Hs). intros H.
  rewrite Hs, !elem_of_app. auto.
Qed.

Lemma strip_last (s : pystr) (c : ascii) :
  last s = Some c -> isspace c = false -> last (strip s) = Some c.
Proof.
  intros Hl Hc. unfold strip, lstrip_with.
  destruct (dropwhile_suffix isspace s) as (pre & Hs & Hp).
  assert (Hd : last (dropwhile isspace s) = Some c).
  { destruct (dropwhile isspace s) as [|x d] eqn:Ed.
    - rewrite app_nil_r in Hs. subst pre.
      destruct s as [|y s _] using rev_ind; [discriminate|].
      rewrite last_snoc in Hl. injection Hl as ->.
      rewrite forallb_app in Hp. simpl in Hp. rewrite Hc in Hp.
      now rewrite andb_false_r in Hp.
    - rewrite Hs, last_app_cons in Hl. exact Hl. }
  rewrite rstrip_with_id; [exact Hd|].
  intros c' Hc'. congruence.
Qed.

(** ** Ordered dictionaries *)

Section Odict.
Context {V : Type}.
Implicit Types (d : odict V) (k : pystr) (v : V).

Lemma od_get_set_eq k v d : od_get k (od_set k v d) = Some v.
Proof.
  induction d as [|[k' v'] d IH]; simpl.
  - now rewrite decide_True.
  - destruct (decide (k' = k)) as [->|Hne]; simpl.
    + now rewrite decide_True.
    + now rewrite decide_False.
Qed.

Lemma od_get_set_ne k k' v d :
  k <> k' -> od_get k' (od_set k v d) = od_get k' d.
Proof.
  intros Hne. induction d as [|[k0 v0] d IH]; simpl.
  - now rewrite decide_False.
  - destruct (decide (k0 = k)) as [->|Hne0]; simpl.
    + now rewrite !decide_False.
    + destruct (decide (k0 = k')); [reflexivity | exact IH].
Qed.

Lemma od_get_keys k d : k ∈ od_keys d <-> is_Some (od_get k d).
Proof.
  induction d as [|[k0 v0] d IH]; simpl.
  - rewrite elem_of_nil. split; [tauto | intros [? [=]]].
  - rewrite elem_of_cons. destruct (decide (k0 = k)) as [->|Hne].
    + split; eauto.
    + rewrite <- IH. split; [intros [?|?]; congruence | auto].
Qed.

Lemma od_get_None k d : k ∉ od_keys d -> od_get k d = None.
Proof.
  rewrite od_get_keys. destruct (od_get k d); [|reflexivity].
  intros []. eauto.
Qed.

Lemma od_get_elem k v d : od_get k d = Some v -> (k, v) ∈ d.
Proof.
  induction d as [|[k0 v0] d IH]; simpl; [discriminate|].
  destruct (decide (k0 = k)) as [->|Hne].
  - intros [= ->]. apply list_elem_of_here.
  - intros H. apply list_elem_of_further. auto.
Qed.

Lemma od_set_keys_in k v d :
  k ∈ od_keys d -> od_keys (od_set k v d) = od_keys d.
Proof.
  induction d as [|[k0 v0] d IH]; simpl.
  - now rewrite elem_of_nil.
  - rewrite elem_of_cons. destruct (decide (k0 = k)) as [->|Hne]; simpl.
    + reflexivity.
    + intros [?|H]; [congruence|]. now rewrite IH.
Qed.

Lemma od_set_new k v d : k ∉ od_keys d -> od_set k v d = d ++ [(k, v)].
Proof.
  induction d as [|[k0 v0] d IH]; simpl; [reflexivity|].
  rewrite not_elem_of_cons. intros [Hne H].
  rewrite decide_False by congruence. now rewrite IH.
Qed.

(** Assignment never moves an existing key. *)
Lemma od_set_keys_prefix k v d :
  exists suf, od_keys (od_set k v d) = od_keys d ++ suf.
Proof.
  destruct (decide (k ∈ od_keys d)) as [Hin|Hnin].
  - exists []. now rewrite od_set_keys_in, app_nil_r.
  - exists [k]. rewrite od_set_new by assumption.
    unfold od_keys. now rewrite map_app.
Qed.

Lemma od_set_NoDup k v d : NoDup (od_keys d) -> NoDup (od_keys (od_set k v d)).
Proof.
  intros H. destruct (decide (k ∈ od_keys d)) as [Hin|Hnin].
  - now rewrite od_set_keys_in.
  - rewrite od_set_new by assumption. unfold od_keys. rewrite map_app.
    apply NoDup_app. repeat split; [exact H| |apply NoDup_singleton].
    intros x Hx ->%list_elem_of_singleton. contradiction.
Qed.

Lemma od_set_Forall (P : pystr * V -> Prop) k v d :
  Forall P d -> P (k, v) -> Forall P (od_set k v d).
Proof.
  intros Hd Hkv. induction Hd as [|[k0 v0] d H0 Hd IH]; simpl.
  - now constructor.
  - destruct (decide (k0 = k)); constructor; auto.
Qed.

Lemma od_get_app_last k v d :
  k ∉ od_keys d -> od_get k (d ++ [(k, v)]) = Some v.
Proof.
  intros H. rewrite <- (od_set_new k v d) by assumption.
  apply od_get_set_eq.
Qed.

Lemma od_set_app_last k v v' d :
  k ∉ od_keys d -> od_set k v' (d ++ [(k, v)]) = d ++ [(k, v')].
Proof.
  induction d as [|[k0 v0] d IH]; simpl.
  - intros _. now rewrite decide_True.
  - rewrite not_elem_of_cons. intros [Hne H].
    rewrite decide_False by congruence. now rewrite IH.
Qed.
End Odict.

(** ** C6: one line of the configuration reader *)

Lemma split_space1_cut (key rest : pystr) :
  space ∉ key -> split_space1 (key ++ space :: rest) = [key; rest].
Proof.
  induction key as [|c key IH]; simpl; intros H.
  - reflexivity.
  - apply not_elem_of_cons in H as [Hc H].
    rewrite bool_decide_eq_false_2 by congruence. now rewrite IH.
Qed.

Lemma split_space1_none (s : pystr) : space ∉ s -> split_space1 s = [s].
Proof.
  induction s as [|c s IH]; simpl; intros H; [reflexivity|].
  apply not_elem_of_cons in H as [Hc H].
  rewrite bool_decide_eq_false_2 by congruence. now rewrite IH.
Qed.

(** A string either has no space or is cut at its first one. *)
Lemma first_space (s : pystr) :
  space ∉ s \/ exists key rest, s = key ++ space :: rest /\ space ∉ key.
Proof.
  induction s as [|c s [IH|(key & rest & -> & IH)]].
  - left. apply not_elem_of_nil.
  - destruct (decide (c = space)) as [->|Hne].
    + right. exists [], s. split; [reflexivity | apply not_elem_of_nil].
    + left. apply not_elem_of_cons. auto.
  - right. destruct (decide (c = space)) as [->|Hne].
    + exists [], (key ++ space :: rest).
      split; [reflexivity | apply not_elem_of_nil].
    + exists (c :: key), rest. split; [reflexivity|].
      apply not_elem_of_cons. auto.
Qed.

Lemma config_step_blank (st : config_state) (raw : pystr) :
  strip raw = [] -> config_step st raw = Ok st.
Proof. intros H. destruct st. unfold config_step. now rewrite H. Qed.

Lemma config_step_header (data : config) (section : option pystr)
    (raw : pystr) :
  is_header (strip raw) = true ->
  config_step (data, section) raw
  = Ok (od_set (header_name (strip raw)) [] data,
        Some (header_name (strip raw))).
Proof. intros H. unfold config_step. now rewrite H. Qed.

Lemma is_header_nonempty (ln : pystr) : is_header ln = true -> ln <> [].
Proof. now destruct ln. Qed.

Lemma config_step_item (data : config) (s : pystr) (m : odict pystr)
    (raw key rest : pystr) :
  is_header (strip raw) = false ->
  strip raw = key ++ space :: rest -> space ∉ key ->
  od_get s data = Some m ->
  config_step (data, Some s) raw
  = Ok (od_set s (od_set key (strip rest) m) data, Some s).
Proof.
  intros Hh Hln Hkey Hm. unfold config_step. rewrite Hh, Hln.
  rewrite bool_decide_eq_false_2 by (now destruct key).
  now rewrite split_space1_cut, Hm.
Qed.

(** The split the specification describes: the key is the text before the
    first white-space run, the value the text after it, trimmed on the
    right. *)
Definition whitespace_run_split (ln : pystr) : pystr * pystr :=
  let nonspace := fun c => negb (isspace c) in
  (takewhile nonspace ln,
   rstrip_with isspace (dropwhile isspace (dropwhile nonspace ln))).

(** A pair whose first white space is a tab, followed later by a space. *)
Definition tab_item : pystr := line (str "a" ++ tab :: str "b c").

(** C6, as stated, fails: the line is cut at its first space character,
    not at its first white-space run, so the tab stays in the key. *)
Lemma tab_item_cut_at_space :
  whitespace_run_split (strip tab_item) = (str "a", str "b c")
  /\ config_step ([(str "s", [])], Some (str "s")) tab_item
     = Ok ([(str "s", [(str "a" ++ tab :: str "b", str "c")])],
           Some (str "s")).
Proof. split; vm_compute; reflexivity. Qed.

(** C6, amended. A blank line (after trimming) changes nothing.  A line
    that after trimming starts with ['['] and ends with [']'] activates the
    section named by the line without its leading ['['] and trailing [']']
    characters and binds that name to a fresh empty map, leaving the other
    sections as they are.  Any other line that contains a space character
    is cut at its first space into a key and a value trimmed on both
    sides, stored in the active section's map: the key then maps to the
    value, every other key keeps its value, and a key already present
    keeps its position. *)
Theorem config_step_cases (data : config) (section : option pystr)
    (raw : pystr) :
  (strip raw = [] -> config_step (data, section) raw = Ok (data, section))
  /\ (is_header (strip raw) = true ->
      exists data',
        config_step (data, section) raw
        = Ok (data', Some (header_name (strip raw)))
        /\ od_get (header_name (strip raw)) data' = Some []
        /\ forall s, s <> header_name (strip raw) ->
                     od_get s data' = od_get s data)
  /\ (is_header (strip raw) = false ->
      forall key rest s m,
        strip raw = key ++ space :: rest -> space ∉ key ->
        section = Some s -> od_get s data = Some m ->
        exists data' m',
          config_step (data, section) raw = Ok (data', Some s)
          /\ od_get s data' = Some m'
          /\ od_get key m' = Some (strip rest)
          /\ (forall k, k <> key -> od_get k m' = od_get k m)
          /\ (key ∈ od_keys m -> od_keys m' = od_keys m)).
Proof.
  split; [apply config_step_blank|]. split.
  - intros H. eexists. split; [now apply config_step_header|].
    split; [apply od_get_set_eq|].
    intros s Hs. apply od_get_set_ne. congruence.
  - intros Hh key rest s m Hln Hkey -> Hm.
    exists (od_set s (od_set key (strip rest) m) data),
           (od_set key (strip rest) m).
    split; [now apply config_step_item|].
    split; [apply od_get_set_eq|].
    split; [apply od_get_set_eq|].
    split; [|apply od_set_keys_in].
    intros k Hk. apply od_get_set_ne. congruence.
Qed.

Definition levels_item : pystr := line (str "Levels    5  ").

Lemma config_step_cases_witness :
  exists data' m',
    config_step ([(str "Chombo", [(str "Levels", str "4")])],
                 Some (str "Chombo")) levels_item
    = Ok (data', Some (str "Chombo"))
    /\ od_get (str "Chombo") data' = Some m'
    /\ od_get (str "Levels") m' = Some (strip (str "   5"))
    /\ (forall k, k <> str "Levels" ->
                  od_get k m' = od_get k [(str "Levels", str "4")])
    /\ (str "Levels" ∈ od_keys [(str "Levels", str "4")] ->
        od_keys m' = od_keys [(str "Levels", str "4")]).
Proof.
  apply (proj2 (proj2 (config_step_cases
                         [(str "Chombo", [(str "Levels", str "4")])]
                         (Some (str "Chombo")) levels_item))).
  - vm_compute; reflexivity.
  - vm_compute; reflexivity.
  - apply (bool_decide_unpack _). vm_compute. exact I.
  - reflexivity.
  - vm_compute; reflexivity.
Defined.

(** ** C10: a section declared twice *)

Arguments config_step : simpl never.

(** The three ways a line can be accepted. *)
Lemma config_step_inv (data : config) (section : option pystr)
    (raw : pystr) (st' : config_state) :
  config_step (data, section) raw = Ok st' ->
  (strip raw = [] /\ st' = (data, section))
  \/ (is_header (strip raw) = true
      /\ st' = (od_set (header_name (strip raw)) [] data,
                Some (header_name (strip raw))))
  \/ (is_header (strip raw) = false
      /\ exists key rest s m,
          strip raw = key ++ space :: rest /\ (space ∉ key)
          /\ section = Some s /\ od_get s data = Some m
          /\ st' = (od_set s (od_set key (strip rest) m) data, Some s)).
Proof.
  unfold config_step.
  destruct (is_header (strip raw)) eqn:Hh.
  { intros [= <-]. auto. }
  case_bool_decide as Hb.
  { intros [= <-]. auto. }
  intros H. right. right. split; [reflexivity|].
  destruct (first_space (strip raw)) as [Hn|(key & rest & Hln & Hkey)].
  - rewrite split_space1_none in H by assumption. discriminate.
  - rewrite Hln, split_space1_cut in H by assumption.
    destruct section as [s|]; [|discriminate].
    destruct (od_get s data) as [m|] eqn:Hm; [|discriminate].
    injection H as <-. now exists key, rest, s, m.
Qed.

Lemma config_step_keys (st st' : config_state) (raw : pystr) :
  config_step st raw = Ok st' ->
  exists suf, od_keys st'.1 = od_keys st.1 ++ suf.
Proof.
  destruct st as [data section]. intros H.
  apply config_step_inv in H
    as [[_ ->]|[[_ ->]|[_ (key & rest & s & m & _ & _ & _ & Hm & ->)]]];
    simpl.
  - exists []. now rewrite app_nil_r.
  - apply od_set_keys_prefix.
  - exists []. rewrite app_nil_r. apply od_set_keys_in.
    apply od_get_keys. now rewrite Hm.
Qed.

(** Sections keep their place while the file is read. *)
Lemma read_lines_keys (lines : list pystr) (st st' : config_state) :
  foldM config_step st lines = Ok st' ->
  exists suf, od_keys st'.1 = od_keys st.1 ++ suf.
Proof.
  revert st. induction lines as [|ln lines IH]; intros st; simpl.
  - intros [= <-]. exists []. now rewrite app_nil_r.
  - intros (st1 & H1 & H2)%bind_Ok_inv.
    apply config_step_keys in H1 as [suf1 H1].
    apply IH in H2 as [suf2 H2].
    exists (suf1 ++ suf2). now rewrite H2, H1, app_assoc.
Qed.

(** Two states of the reader that agree on the active section and on the
    content of that section and of section [s]. *)
Definition same_view (s : pystr) (a b : config_state) : Prop :=
  (exists act, a.2 = Some act /\ b.2 = Some act
               /\ od_get act a.1 = od_get act b.1)
  /\ od_get s a.1 = od_get s b.1.

Lemma od_get_set_both {V} (s k : pystr) (v : V) (d d' : odict V) :
  od_get s d = od_get s d' ->
  od_get s (od_set k v d) = od_get s (od_set k v d').
Proof.
  intros H. destruct (decide (k = s)) as [->|Hne].
  - now rewrite !od_get_set_eq.
  - now rewrite !od_get_set_ne.
Qed.

Lemma config_step_same_view (s : pystr) (a b a' : config_state)
    (raw : pystr) :
  same_view s a b -> config_step a raw = Ok a' ->
  exists b', config_step b raw = Ok b' /\ same_view s a' b'.
Proof.
  destruct a as [da seca], b as [db secb].
  intros [(act & Ha & Hb & Hact) Hs] H. cbn [fst snd] in *. subst seca secb.
  apply config_step_inv in H
    as [[Hbl ->]|[[Hh ->]|[Hh (key & rest & s' & m & Hln & Hkey & Hsec
                                 & Hm & ->)]]].
  - exists (db, Some act). split; [now apply config_step_blank|].
    split; [exists act|]; auto.
  - eexists. split; [now apply config_step_header|].
    split; simpl.
    + eexists. repeat split. now rewrite !od_get_set_eq.
    + now apply od_get_set_both.
  - injection Hsec as <-.
    eexists. split.
    { apply (config_step_item db act m raw key rest Hh Hln Hkey).
      now rewrite <- Hact. }
    split; simpl.
    + exists act. repeat split. now rewrite !od_get_set_eq.
    + now apply od_get_set_both.
Qed.

Lemma read_lines_same_view (s : pystr) (lines : list pystr)
    (a b a' : config_state) :
  same_view s a b -> foldM config_step a lines = Ok a' ->
  exists b', foldM config_step b lines = Ok b' /\ same_view s a' b'.
Proof.
  revert a b. induction lines as [|ln lines IH]; intros a b Hab; simpl.
  - intros [= <-]. eauto.
  - intros (a1 & H1 & H2)%bind_Ok_inv.
    destruct (config_step_same_view s a b a1 ln Hab H1) as (b1 & Hb1 & Hab1).
    rewrite Hb1. simpl. eauto.
Qed.

(** C10. When a file declares section [s] twice, the document returned
    holds under [s] exactly what reading the file from the second header
    on puts there, so the pairs stored after the first header are gone;
    and the section names of the document extend those present after the
    first header, among which [s] is, so [s] keeps the position of its
    first declaration. *)
Theorem read_config_redeclared (file : pystr) (pre mid post : list pystr)
    (h1 h2 : pystr) (d : config) :
  file_lines file = pre ++ h1 :: mid ++ h2 :: post ->
  is_header (strip h1) = true -> is_header (strip h2) = true ->
  header_name (strip h1) = header_name (strip h2) ->
  read_config file = Ok d ->
  exists st1 st2 : config_state,
    read_config_lines (pre ++ [h1]) = Ok st1
    /\ read_config_lines (h2 :: post) = Ok st2
    /\ od_get (header_name (strip h2)) d
       = od_get (header_name (strip h2)) st2.1
    /\ header_name (strip h2) ∈ od_keys st1.1
    /\ exists later, od_keys d = od_keys st1.1 ++ later.
Proof.
  intros Hlines Hh1 Hh2 Hname Hread.
  unfold read_config in Hread. rewrite Hlines in Hread.
  apply bind_Ok_inv in Hread as ([d' sec] & Hrun & [= ->]).
  unfold read_config_lines in *.
  replace (pre ++ h1 :: mid ++ h2 :: post)
    with ((pre ++ [h1]) ++ mid ++ h2 :: post) in Hrun
    by now rewrite <- app_assoc.
  rewrite foldM_app in Hrun.
  apply bind_Ok_inv in Hrun as (st1 & Hst1 & Hrun).
  rewrite foldM_app in Hrun.
  apply bind_Ok_inv in Hrun as ([dm secm] & Hmid & Hrun).
  rewrite foldM_cons, config_step_header, bind_Ok in Hrun by assumption.
  assert (Hin : header_name (strip h2) ∈ od_keys st1.1).
  { rewrite foldM_app in Hst1.
    apply bind_Ok_inv in Hst1 as ([dp secp] & Hpre & Hst1).
    rewrite foldM_cons, config_step_header in Hst1 by assumption.
    injection Hst1 as <-. simpl. rewrite <- Hname.
    apply od_get_keys. rewrite od_get_set_eq. eauto. }
  assert (Hview0 : same_view (header_name (strip h2))
            (od_set (header_name (strip h2)) [] dm,
             Some (header_name (strip h2)))
            ([(header_name (strip h2), [])],
             Some (header_name (strip h2)))).
  { split; simpl; [eexists; repeat split|];
      now rewrite od_get_set_eq, decide_True. }
  destruct (read_lines_same_view _ post _ _ _ Hview0 Hrun)
    as (st2 & Hst2 & [_ Hview]).
  exists st1, st2. split; [exact Hst1|]. split.
  { rewrite foldM_cons, config_step_header by assumption. exact Hst2. }
  split; [exact Hview|]. split; [exact Hin|].
  apply read_lines_keys in Hmid as [suf1 Hmid].
  apply read_lines_keys in Hrun as [suf2 Hsuf2]. simpl in *.
  exists (suf1 ++ suf2).
  rewrite Hsuf2, od_set_keys_in, Hmid, app_assoc; [reflexivity|].
  rewrite Hmid, elem_of_app. auto.
Qed.

(** The section [Grid] declared twice, with another section in between. *)
Definition redeclared_file : pystr :=
  line (str "[Grid]") ++ line (str "X1-grid 1 0.0 100 u 1.0")
  ++ line (str "[Time]") ++ line (str "CFL 0.4")
  ++ line (str "[Grid]") ++ line (str "X2-grid 1 0.0 50 u 1.0").

Lemma read_config_redeclared_witness :
  exists st1 st2 : config_state,
    read_config_lines ([] ++ [line (str "[Grid]")]) = Ok st1
    /\ read_config_lines
         (line (str "[Grid]") :: [line (str "X2-grid 1 0.0 50 u 1.0")])
       = Ok st2
    /\ od_get (header_name (strip (line (str "[Grid]"))))
         [(str "Grid", [(str "X2-grid", str "1 0.0 50 u 1.0")]);
          (str "Time", [(str "CFL", str "0.4")])]
       = od_get (header_name (strip (line (str "[Grid]")))) st2.1
    /\ header_name (strip (line (str "[Grid]"))) ∈ od_keys st1.1
    /\ exists later,
        od_keys [(str "Grid", [(str "X2-grid", str "1 0.0 50 u 1.0")]);
                 (str "Time", [(str "CFL", str "0.4")])]
        = od_keys st1.1 ++ later.
Proof.
  apply (read_config_redeclared redeclared_file []
           [line (str "X1-grid 1 0.0 100 u 1.0"); line (str "[Time]");
            line (str "CFL 0.4")]
           [line (str "X2-grid 1 0.0 50 u 1.0")]
           (line (str "[Grid]")) (line (str "[Grid]")));
    vm_compute; reflexivity.
Defined.

(** ** C5: writing a configuration and reading it back *)

(** *** Files made of whole lines *)

Lemma text_lines_line (body rest : pystr) :
  newline ∉ body ->
  text_lines (line body ++ rest) = line body :: text_lines rest.
Proof.
  unfold line. induction body as [|c body IH]; simpl; intros H.
  - reflexivity.
  - apply not_elem_of_cons in H as [Hc H].
    rewrite bool_decide_eq_false_2 by congruence. now rewrite IH.
Qed.

Lemma text_lines_body (text ln : pystr) :
  ln ∈ text_lines text ->
  exists body, (newline ∉ body) /\ (ln = body \/ ln = line body).
Proof.
  revert ln. induction text as [|c r IH]; simpl; intros ln Hin.
  - now apply elem_of_nil in Hin.
  - case_bool_decide as Hc.
    + apply elem_of_cons in Hin as [->|Hin]; [|now apply IH].
      exists []. split; [apply not_elem_of_nil|]. right. now subst.
    + destruct (text_lines r) as [|l ls].
      * apply list_elem_of_singleton in Hin as ->.
        exists [c]. split; [|now left].
        apply not_elem_of_cons. split; [congruence | apply not_elem_of_nil].
      * apply elem_of_cons in Hin as [->|Hin].
        -- destruct (IH l) as (body & Hb & Hl); [apply list_elem_of_here|].
           exists (c :: body). split.
           ++ apply not_elem_of_cons. split; [congruence | exact Hb].
           ++ destruct Hl as [->| ->]; auto.
        -- apply IH. now apply list_elem_of_further.
Qed.

(** Cutting a text into lines loses nothing. *)
Lemma text_lines_concat (text : pystr) : concat (text_lines text) = text.
Proof.
  induction text as [|c r IH]; simpl; [reflexivity|].
  case_bool_decide.
  - simpl. now rewrite IH.
  - destruct (text_lines r) as [|l ls]; simpl in *; now rewrite <- IH.
Qed.

Lemma text_lines_elem (text ln : pystr) (c : ascii) :
  ln ∈ text_lines text -> c ∈ ln -> c ∈ text.
Proof.
  intros Hln Hc. rewrite <- (text_lines_concat text).
  apply list_elem_of_In, in_concat. exists ln.
  split; now apply list_elem_of_In.
Qed.

(** A text that is empty or ends with a newline. *)
Definition whole_lines (s : pystr) : Prop := s = [] \/ last s = Some newline.

Lemma text_lines_nonempty (s : pystr) : s <> [] -> text_lines s <> [].
Proof.
  destruct s as [|c r]; [contradiction|]. intros _. simpl.
  case_bool_decide; [discriminate|]. now destruct (text_lines r).
Qed.

Lemma text_lines_app (s t : pystr) :
  whole_lines s -> text_lines (s ++ t) = text_lines s ++ text_lines t.
Proof.
  induction s as [|c r IH]; intros Hs; [reflexivity|].
  destruct Hs as [|Hlast]; [discriminate|]. simpl.
  case_bool_decide as Hc.
  - rewrite IH; [reflexivity|]. destruct r; [now left|right].
    now rewrite last_cons_cons in Hlast.
  - assert (Hr : r <> []).
    { intros ->. simpl in Hlast. congruence. }
    rewrite IH.
    + pose proof (text_lines_nonempty r Hr).
      now destruct (text_lines r).
    + right. destruct r; [contradiction|]. now rewrite last_cons_cons in Hlast.
Qed.

Lemma whole_lines_line (s : pystr) : whole_lines (line s).
Proof. right. apply last_snoc. Qed.

Lemma whole_lines_app (s t : pystr) :
  whole_lines s -> whole_lines t -> whole_lines (s ++ t).
Proof.
  intros Hs [->|Ht]; [now rewrite app_nil_r|].
  right. rewrite last_app. now rewrite Ht.
Qed.

(** *** The translation of line ends *)

Lemma universal_newlines_cons (c : ascii) (s : pystr) :
  c <> carriage_return ->
  universal_newlines (c :: s) = c :: universal_newlines s.
Proof. intros H. simpl. now rewrite bool_decide_eq_false_2. Qed.

Lemma universal_newlines_cr (d : ascii) (s : pystr) :
  universal_newlines (carriage_return :: d :: s)
  = if bool_decide (d = newline) then universal_newlines (d :: s)
    else newline :: universal_newlines (d :: s).
Proof. reflexivity. Qed.

(** A text without carriage return is read as it is. *)
Lemma universal_newlines_id (s : pystr) :
  carriage_return ∉ s -> universal_newlines s = s.
Proof.
  induction s as [|c s IH]; intros H; [reflexivity|].
  apply not_elem_of_cons in H as [Hc H].
  rewrite universal_newlines_cons by congruence. now rewrite IH.
Qed.

(** The translation works piece by piece, unless a piece ends with a
    carriage return, which may belong to a line end of two characters. *)
Lemma universal_newlines_app (s t : pystr) :
  last s <> Some carriage_return ->
  universal_newlines (s ++ t) = universal_newlines s ++ universal_newlines t.
Proof.
  induction s as [|c r IH]; intros Hl; [reflexivity|].
  assert (Hr : last r <> Some carriage_return).
  { destruct r; [discriminate|]. now rewrite last_cons_cons in Hl. }
  specialize (IH Hr).
  destruct (decide (c = carriage_return)) as [->|Hc].
  - destruct r as [|d r]; [now contradiction Hl|].
    change ((carriage_return :: d :: r) ++ t)
      with (carriage_return :: d :: r ++ t).
    rewrite !universal_newlines_cr.
    change (d :: r ++ t) with ((d :: r) ++ t). rewrite IH.
    now case_bool_decide.
  - change ((c :: r) ++ t) with (c :: r ++ t).
    rewrite !universal_newlines_cons by assumption. now rewrite IH.
Qed.

(** No carriage return is left, and nothing but newlines is added. *)
Lemma universal_newlines_free (s : pystr) :
  carriage_return ∉ universal_newlines s.
Proof.
  induction s as [|c r IH]; [apply not_elem_of_nil|].
  destruct (decide (c = carriage_return)) as [->|Hc].
  - destruct r as [|d r];
      [apply not_elem_of_cons; split;
       [discriminate | apply not_elem_of_nil]|].
    rewrite universal_newlines_cr. case_bool_decide; [exact IH|].
    apply not_elem_of_cons. split; [discriminate | exact IH].
  - rewrite universal_newlines_cons by assumption.
    apply not_elem_of_cons. split; [congruence | exact IH].
Qed.

Lemma universal_newlines_elem (s : pystr) (c : ascii) :
  c ∈ universal_newlines s -> c ∈ s \/ c = newline.
Proof.
  induction s as [|x r IH]; [intros H; now apply elem_of_nil in H|].
  destruct (decide (x = carriage_return)) as [->|Hx].
  - destruct r as [|d r].
    + intros H. apply list_elem_of_singleton in H. auto.
    + rewrite universal_newlines_cr. case_bool_decide as Hd.
      * intros [H|H]%IH; [left; now apply list_elem_of_further | auto].
      * intros [->|[H|H]%IH]%elem_of_cons;
          [auto | left; now apply list_elem_of_further | auto].
  - rewrite universal_newlines_cons by assumption.
    intros [->|[H|H]%IH]%elem_of_cons;
      [left; apply list_elem_of_here
      | left; now apply list_elem_of_further | auto].
Qed.

Lemma universal_newlines_last (s : pystr) :
  last s = Some newline -> last (universal_newlines s) = Some newline.
Proof.
  induction s as [|c r IH]; [discriminate|].
  destruct r as [|d r].
  - intros [= ->]. reflexivity.
  - rewrite last_cons_cons. intros Hl. specialize (IH Hl).
    assert (Hne : universal_newlines (d :: r) <> [])
      by (intros E; now rewrite E in IH).
    destruct (decide (c = carriage_return)) as [->|Hc].
    + rewrite universal_newlines_cr. case_bool_decide; [exact IH|].
      destruct (universal_newlines (d :: r)); [contradiction|].
      now rewrite last_cons_cons.
    + rewrite universal_newlines_cons by assumption.
      destruct (universal_newlines (d :: r)); [contradiction|].
      now rewrite last_cons_cons.
Qed.

Lemma universal_newlines_whole (s : pystr) :
  whole_lines s -> whole_lines (universal_newlines s).
Proof.
  intros [->|H]; [now left | right]. now apply universal_newlines_last.
Qed.

Lemma whole_lines_last (s : pystr) :
  whole_lines s -> last s <> Some carriage_return.
Proof. intros [->|H]; [discriminate|]. rewrite H. discriminate. Qed.

(** *** The lines of a file *)

Lemma file_lines_line (body rest : pystr) :
  newline ∉ body -> carriage_return ∉ body ->
  file_lines (line body ++ rest) = line body :: file_lines rest.
Proof.
  intros Hnl Hcr. unfold file_lines.
  rewrite universal_newlines_app
    by (unfold line; rewrite last_snoc; discriminate).
  rewrite (universal_newlines_id (line body)).
  - now apply text_lines_line.
  - unfold line. rewrite elem_of_app, list_elem_of_singleton.
    intros [H|H]; [contradiction | discriminate].
Qed.

Lemma file_lines_app (s t : pystr) :
  whole_lines s -> file_lines (s ++ t) = file_lines s ++ file_lines t.
Proof.
  intros Hs. unfold file_lines.
  rewrite universal_newlines_app by now apply whole_lines_last.
  now apply text_lines_app, universal_newlines_whole.
Qed.

(** A text without line end in it. *)
Definition one_line (s : pystr) : Prop :=
  (newline ∉ s) /\ (carriage_return ∉ s).

Definition linebreak (c : ascii) : bool :=
  bool_decide (c = newline) || bool_decide (c = carriage_return).

Lemma one_line_forallb (s : pystr) :
  forallb (fun c => negb (linebreak c)) s = true -> one_line s.
Proof.
  intros H. rewrite forallb_forall in H.
  split; intros Hin; apply list_elem_of_In, H in Hin; discriminate.
Qed.

Lemma one_line_app (s t : pystr) :
  one_line s -> one_line t -> one_line (s ++ t).
Proof. intros [? ?] [? ?]. split; rewrite elem_of_app; tauto. Qed.

(** A line as written: a body without line end, then the newline. *)
Definition written_line (l : pystr) : Prop :=
  exists body, l = line body /\ one_line body.

Lemma file_lines_concat (ls : list pystr) :
  Forall written_line ls -> file_lines (concat ls) = ls.
Proof.
  induction 1 as [|l ls (body & -> & Hb & Hcr) _ IH]; simpl; [reflexivity|].
  now rewrite file_lines_line, IH.
Qed.

(** A line read from a file holds no carriage return, and no newline
    before its end. *)
Lemma file_lines_body (file ln : pystr) :
  ln ∈ file_lines file ->
  (carriage_return ∉ ln)
  /\ exists body, (newline ∉ body) /\ (ln = body \/ ln = line body).
Proof.
  intros Hin. split; [|now apply (text_lines_body _ _ Hin)].
  intros Hc. apply (universal_newlines_free file).
  now apply (text_lines_elem _ ln).
Qed.

Lemma file_line_strip (file ln : pystr) :
  ln ∈ file_lines file -> newline ∉ strip ln.
Proof.
  intros (_ & body & Hb & [->| ->])%file_lines_body.
  - intros H. now apply Hb, strip_elem.
  - rewrite strip_line. intros H. now apply Hb, strip_elem.
Qed.

Lemma file_line_strip_cr (file ln : pystr) :
  ln ∈ file_lines file -> carriage_return ∉ strip ln.
Proof.
  intros [Hcr _]%file_lines_body H. now apply Hcr, strip_elem.
Qed.

(** *** What every document read from a file satisfies *)

Definition key_ok (k : pystr) : Prop :=
  k <> [] /\ (space ∉ k) /\ (newline ∉ k)
  /\ forall c, head k = Some c -> isspace c = false.

Definition value_ok (v : pystr) : Prop :=
  v <> [] /\ (newline ∉ v) /\ trimmed v.

Definition item_ok (kv : pystr * pystr) : Prop :=
  key_ok kv.1 /\ value_ok kv.2
  /\ startswith "["%char kv.1 && endswith "]"%char kv.2 = false.

Definition name_ok (s : pystr) : Prop :=
  (newline ∉ s) /\ startswith "["%char s = false
  /\ endswith "]"%char s = false.

Definition section_ok (sec : pystr * odict pystr) : Prop :=
  name_ok sec.1 /\ NoDup (od_keys sec.2) /\ Forall item_ok sec.2.

Definition config_ok (d : config) : Prop :=
  NoDup (od_keys d) /\ Forall section_ok d.

Lemma startswith_app (c : ascii) (s t : pystr) :
  s <> [] -> startswith c (s ++ t) = startswith c s.
Proof. now destruct s. Qed.

Lemma endswith_app (c : ascii) (s t : pystr) :
  t <> [] -> endswith c (s ++ t) = endswith c t.
Proof.
  intros H. unfold endswith. rewrite last_app.
  destruct t as [|x t _] using rev_ind; [contradiction|].
  now rewrite last_snoc.
Qed.

Lemma inchars_single (c0 c : ascii) : inchars [c0] c = bool_decide (c = c0).
Proof.
  unfold inchars. apply bool_decide_ext. apply list_elem_of_singleton.
Qed.

Lemma header_name_ok (ln : pystr) : newline ∉ ln -> name_ok (header_name ln).
Proof.
  intros Hnl. unfold header_name, rstrip_chars, lstrip_chars, lstrip_with.
  set (p := inchars ["["%char]). set (q := inchars ["]"%char]).
  destruct (dropwhile_suffix p ln) as (pre & Hpre & _).
  destruct (rstrip_with_prefix q (dropwhile p ln)) as (suf & Hsuf & _).
  repeat split.
  - intros H. apply Hnl. rewrite Hpre, Hsuf, !elem_of_app. auto.
  - destruct (rstrip_with q (dropwhile p ln)) as [|x n] eqn:E;
      [reflexivity|].
    simpl. assert (Hx : p x = false).
    { apply (dropwhile_head p ln). now rewrite Hsuf. }
    unfold p in Hx. now rewrite inchars_single in Hx.
  - unfold endswith.
    destruct (last (rstrip_with q (dropwhile p ln))) as [x|] eqn:E;
      [|reflexivity].
    apply rstrip_with_last in E. unfold q in E.
    now rewrite inchars_single in E.
Qed.

Lemma last_app_r {A} (s t : list A) : t <> [] -> last (s ++ t) = last t.
Proof.
  destruct t as [|x t _] using rev_ind; [contradiction|].
  intros _. now rewrite app_assoc, !last_snoc.
Qed.

Lemma last_nonempty {A} (l : list A) : l <> [] -> is_Some (last l).
Proof.
  destruct l as [|x l _] using rev_ind; [contradiction|].
  rewrite last_snoc. eauto.
Qed.

(** The pair taken from an accepted line is well formed. *)
Lemma item_of_line_ok (ln key rest : pystr) :
  trimmed ln -> newline ∉ ln -> is_header ln = false ->
  ln = key ++ space :: rest -> space ∉ key ->
  item_ok (key, strip rest).
Proof.
  intros [Hhd Hlast] Hnl Hh Hln Hkey.
  assert (Hk : key <> []).
  { intros ->. subst ln. now specialize (Hhd space eq_refl). }
  destruct (last_nonempty ln) as [c Hc]; [subst ln; now destruct key|].
  assert (Hcs : isspace c = false) by auto.
  assert (Hr : last rest = Some c).
  { rewrite Hln, last_app_cons in Hc. destruct rest as [|y rest].
    - injection Hc as <-. discriminate Hcs.
    - now rewrite last_cons_cons in Hc. }
  pose proof (strip_last rest c Hr Hcs) as Hsl.
  repeat split; simpl.
  - exact Hk.
  - exact Hkey.
  - intros H. apply Hnl. rewrite Hln, elem_of_app. auto.
  - intros x Hx. apply Hhd. rewrite Hln. now destruct key.
  - intros E. now rewrite E in Hsl.
  - intros H. apply strip_elem in H. apply Hnl.
    rewrite Hln, elem_of_app, elem_of_cons. auto.
  - apply strip_trimmed.
  - apply strip_trimmed.
  - unfold is_header in Hh. rewrite Hln in Hh at 1.
    rewrite startswith_app in Hh by assumption.
    unfold endswith in *. now rewrite Hc in Hh; rewrite Hsl.
Qed.

Lemma config_step_ok (st st' : config_state) (raw : pystr) :
  newline ∉ strip raw -> config_ok st.1 ->
  config_step st raw = Ok st' -> config_ok st'.1.
Proof.
  destruct st as [data section]. intros Hnl [Hnd Hall] H.
  apply config_step_inv in H
    as [[_ ->]|[[_ ->]|[Hh (key & rest & s & m & Hln & Hkey & _ & Hm & ->)]]];
    simpl in *.
  - now split.
  - split; [now apply od_set_NoDup|].
    apply od_set_Forall; [exact Hall|].
    split; [now apply header_name_ok|].
    split; [apply NoDup_nil_2 | constructor].
  - split; [now apply od_set_NoDup|].
    apply od_set_Forall; [exact Hall|].
    apply od_get_elem in Hm.
    rewrite Forall_forall in Hall. destruct (Hall _ Hm) as (Hn & Hmd & Hmi).
    split; [exact Hn|]. simpl.
    split; [now apply od_set_NoDup|].
    apply od_set_Forall; [exact Hmi|].
    apply (item_of_line_ok (strip raw)); auto using strip_trimmed.
Qed.

Lemma read_lines_ok (lines : list pystr) (st st' : config_state) :
  (forall ln, ln ∈ lines -> newline ∉ strip ln) -> config_ok st.1 ->
  foldM config_step st lines = Ok st' -> config_ok st'.1.
Proof.
  revert st. induction lines as [|ln lines IH]; intros st Hnl Hok; simpl.
  - now intros [= <-].
  - intros (st1 & H1 & H2)%bind_Ok_inv.
    apply (IH st1); [| |exact H2].
    + intros l Hl. apply Hnl. now apply list_elem_of_further.
    + eapply config_step_ok; [|exact Hok|exact H1].
      apply Hnl, list_elem_of_here.
Qed.

Lemma read_config_ok (file : pystr) (d : config) :
  read_config file = Ok d -> config_ok d.
Proof.
  unfold read_config, read_config_lines.
  intros ([d' sec] & Hrun & [= ->])%bind_Ok_inv.
  apply (read_lines_ok _ _ _ (file_line_strip file)) in Hrun; [exact Hrun|].
  split; [apply NoDup_nil_2 | constructor].
Qed.

(** A document in which the character [c] occurs nowhere: in no section
    name, key or value. *)
Definition config_free (c : ascii) (d : config) : Prop :=
  Forall (fun sec : pystr * odict pystr =>
            (c ∉ sec.1)
            /\ Forall (fun kv : pystr * pystr => (c ∉ kv.1) /\ (c ∉ kv.2))
                 sec.2) d.

Lemma header_name_elem (ln : pystr) (c : ascii) :
  c ∈ header_name ln -> c ∈ ln.
Proof.
  unfold header_name, rstrip_chars, lstrip_chars, lstrip_with.
  set (p := inchars ["["%char]). set (q := inchars ["]"%char]).
  destruct (dropwhile_suffix p ln) as (pre & Hpre & _).
  destruct (rstrip_with_prefix q (dropwhile p ln)) as (suf & Hsuf & _).
  intros H. rewrite Hpre, Hsuf, !elem_of_app. auto.
Qed.

(** The reader puts into the document only characters of the lines. *)
Lemma config_step_free (c : ascii) (st st' : config_state) (raw : pystr) :
  c ∉ strip raw -> config_free c st.1 ->
  config_step st raw = Ok st' -> config_free c st'.1.
Proof.
  destruct st as [data section]. intros Hc Hall H.
  apply config_step_inv in H
    as [[_ ->]|[[_ ->]|[Hh (key & rest & s & m & Hln & Hkey & _ & Hm & ->)]]];
    simpl in *.
  - exact Hall.
  - apply od_set_Forall; [exact Hall|]. simpl. split; [|constructor].
    intros H. now apply Hc, header_name_elem.
  - apply od_set_Forall; [exact Hall|].
    apply od_get_elem in Hm. unfold config_free in Hall.
    rewrite Forall_forall in Hall. destruct (Hall _ Hm) as [Hs Hitems].
    simpl in *. split; [exact Hs|].
    apply od_set_Forall; [exact Hitems|]. simpl.
    rewrite Hln, elem_of_app, elem_of_cons in Hc. split.
    + tauto.
    + intros H%strip_elem. tauto.
Qed.

Lemma read_lines_free (c : ascii) (lines : list pystr)
    (st st' : config_state) :
  (forall ln, ln ∈ lines -> c ∉ strip ln) -> config_free c st.1 ->
  foldM config_step st lines = Ok st' -> config_free c st'.1.
Proof.
  revert st. induction lines as [|ln lines IH]; intros st Hc Hok; simpl.
  - now intros [= <-].
  - intros (st1 & H1 & H2)%bind_Ok_inv.
    apply (IH st1); [| |exact H2].
    + intros l Hl. apply Hc. now apply list_elem_of_further.
    + eapply config_step_free; [|exact Hok|exact H1].
      apply Hc, list_elem_of_here.
Qed.

(** A document read from a file holds no carriage return. *)
Lemma read_config_free (file : pystr) (d : config) :
  read_config file = Ok d -> config_free carriage_return d.
Proof.
  unfold read_config, read_config_lines.
  intros ([d' sec] & Hrun & [= ->])%bind_Ok_inv.
  apply (read_lines_free _ _ _ _ (file_line_strip_cr file)) in Hrun;
    [exact Hrun | constructor].
Qed.

(** *** Reading the written lines *)

Lemma forallb_replicate {A} (p : A -> bool) (n : nat) (x : A) :
  p x = true -> forallb p (replicate n x) = true.
Proof. intros H. induction n; simpl; [reflexivity | now rewrite H]. Qed.

Lemma strip_leading_spaces (n : nat) (v : pystr) :
  value_ok v -> strip (replicate n space ++ v) = v.
Proof.
  intros (Hv & _ & Hhd & Hlast). unfold strip, lstrip_with.
  destruct v as [|c v]; [contradiction|].
  rewrite dropwhile_app_stop.
  - now apply rstrip_with_id.
  - now apply forallb_replicate.
  - now apply Hhd.
Qed.

Lemma config_step_written_blank (st : config_state) :
  config_step st (line []) = Ok st.
Proof. now apply config_step_blank. Qed.

Lemma header_name_written (s : pystr) :
  name_ok s -> header_name ("["%char :: s ++ ["]"%char]) = s.
Proof.
  intros (_ & Hs & He).
  unfold header_name, rstrip_chars, lstrip_chars, lstrip_with.
  assert (dropwhile (inchars ["["%char]) ("["%char :: s ++ ["]"%char])
          = s ++ ["]"%char]) as ->.
  { rewrite dropwhile_skip
      by (rewrite inchars_single; now apply bool_decide_eq_true_2).
    destruct s as [|x s]; [reflexivity|].
    apply dropwhile_stop. now rewrite inchars_single. }
  rewrite rstrip_with_snoc, inchars_single.
  rewrite bool_decide_eq_true_2 by reflexivity.
  apply rstrip_with_id. intros c Hc. rewrite inchars_single.
  unfold endswith in He. now rewrite Hc in He.
Qed.

Lemma config_step_written_header (data : config) (section : option pystr)
    (s : pystr) :
  name_ok s ->
  config_step (data, section) (line ("["%char :: s ++ ["]"%char]))
  = Ok (od_set s [] data, Some s).
Proof.
  intros Hs.
  assert (Hstrip : strip (line ("["%char :: s ++ ["]"%char]))
                   = "["%char :: s ++ ["]"%char]).
  { rewrite strip_line. apply strip_id. split.
    - now intros c [= <-].
    - intros c. rewrite app_comm_cons, last_snoc. now intros [= <-]. }
  rewrite config_step_header; rewrite Hstrip.
  - now rewrite header_name_written.
  - unfold is_header, endswith. simpl.
    now rewrite app_comm_cons, last_snoc.
Qed.

Lemma config_step_written_item (data : config) (s : pystr)
    (m : odict pystr) (k v : pystr) :
  item_ok (k, v) -> (length k < 25)%nat -> od_get s data = Some m ->
  config_step (data, Some s) (config_item (k, v))
  = Ok (od_set s (od_set k v m) data, Some s).
Proof.
  intros ((Hk & Hsp & _ & Hhd) & Hv & Hnh) Hlen Hm. simpl in *.
  unfold config_item, ljust. simpl.
  destruct (25 - length k)%nat as [|n] eqn:En; [lia|]. simpl.
  rewrite <- (app_assoc k).
  assert (Hstrip : strip (line (k ++ (space :: replicate n space) ++ v))
                   = k ++ space :: replicate n space ++ v).
  { rewrite strip_line. apply strip_id.
    destruct Hv as (Hv0 & _ & _ & Hlast). split.
    - intros c Hc. apply Hhd. now destruct k.
    - intros c Hc. apply Hlast. rewrite last_app_cons in Hc.
      change (space :: replicate n space ++ v)
        with ((space :: replicate n space) ++ v) in Hc.
      now rewrite last_app_r in Hc. }
  rewrite (config_step_item data s m _ k (replicate n space ++ v));
    [now rewrite strip_leading_spaces | | exact Hstrip | exact Hsp | exact Hm].
  rewrite Hstrip. unfold is_header.
  rewrite startswith_app by assumption.
  change (space :: replicate n space ++ v)
    with ((space :: replicate n space) ++ v).
  rewrite app_assoc, endswith_app; [exact Hnh | now destruct Hv].
Qed.

(** The pairs of a section, read after its header. *)
Lemma read_written_items (acc : config) (s : pystr)
    (items m0 : odict pystr) :
  s ∉ od_keys acc -> NoDup (od_keys (m0 ++ items)) ->
  Forall item_ok items ->
  Forall (fun kv => (length kv.1 < 25)%nat) items ->
  foldM config_step (acc ++ [(s, m0)], Some s) (map config_item items)
  = Ok (acc ++ [(s, m0 ++ items)], Some s).
Proof.
  intros Hs. revert m0.
  induction items as [|[k v] items IH]; intros m0 Hnd Hok Hshort; simpl.
  - now rewrite app_nil_r.
  - inversion_clear Hok as [|? ? Hkv Hok']. 
    inversion_clear Hshort as [|? ? Hlen Hshort'].
    rewrite (config_step_written_item _ s m0) by
      (auto using od_get_app_last).
    simpl. rewrite od_set_app_last by assumption.
    assert (Hnew : k ∉ od_keys m0).
    { unfold od_keys in Hnd. rewrite map_app in Hnd.
      apply NoDup_app in Hnd as (_ & Hnd & _).
      intros Hin. apply (Hnd k Hin). apply list_elem_of_here. }
    rewrite od_set_new by assumption.
    rewrite IH; [now rewrite <- app_assoc| |assumption..].
    now rewrite <- app_assoc.
Qed.

(** The sections of a document, read after those already there. *)
Lemma read_written_sections (d acc : config) (section : option pystr) :
  NoDup (od_keys (acc ++ d)) -> Forall section_ok d ->
  (forall s m k v, (s, m) ∈ d -> (k, v) ∈ m -> (length k < 25)%nat) ->
  exists section',
    foldM config_step (acc, section) (config_lines d)
    = Ok (acc ++ d, section').
Proof.
  revert acc section.
  induction d as [|[s m] d IH]; intros acc section Hnd Hok Hshort.
  - exists section. simpl. now rewrite app_nil_r.
  - inversion_clear Hok as [|? ? (Hn & Hmd & Hmi) Hok']. simpl in *.
    assert (Hs : s ∉ od_keys acc).
    { unfold od_keys in Hnd. rewrite map_app in Hnd.
      apply NoDup_app in Hnd as (_ & Hnd & _).
      intros Hin. apply (Hnd s Hin). apply list_elem_of_here. }
    destruct (IH (acc ++ [(s, m)]) (Some s)) as [sec' Hrest].
    { now rewrite <- app_assoc. }
    { exact Hok'. }
    { intros s' m' k v Hin. apply (Hshort s' m' k v).
      now apply list_elem_of_further. }
    exists sec'. unfold config_lines in *. simpl.
    rewrite config_step_written_header, bind_Ok by assumption.
    rewrite config_step_written_blank, bind_Ok.
    rewrite !foldM_app.
    rewrite od_set_new by assumption.
    rewrite (read_written_items acc s m []); [|assumption..| ].
    + rewrite bind_Ok, foldM_cons, config_step_written_blank, !bind_Ok.
      simpl. rewrite Hrest, <- app_assoc. reflexivity.
    + apply Forall_forall. intros [k v] Hkv. simpl.
      apply (Hshort s m k v); [apply list_elem_of_here | exact Hkv].
Qed.

(** The text before the newline of an item line and of a header line
    holds the characters of the document and spaces and brackets. *)
Lemma written_item_free (c : ascii) (kv : pystr * pystr) :
  c <> space -> c ∉ kv.1 -> c ∉ kv.2 -> c ∉ ljust 25 kv.1 ++ kv.2.
Proof.
  intros Hc Hk Hv. unfold ljust.
  rewrite !elem_of_app, elem_of_replicate. tauto.
Qed.

Lemma written_header_free (c : ascii) (s : pystr) :
  c <> "["%char -> c <> "]"%char -> c ∉ s -> c ∉ "["%char :: s ++ ["]"%char].
Proof.
  intros H1 H2 Hs.
  rewrite elem_of_cons, elem_of_app, list_elem_of_singleton. tauto.
Qed.

Lemma written_blank_line : written_line (line []).
Proof. exists []. repeat split; apply not_elem_of_nil. Qed.

Lemma written_config_lines (d : config) :
  Forall section_ok d -> config_free carriage_return d ->
  Forall written_line (config_lines d).
Proof.
  unfold config_lines, config_free. intros Hok Hcr.
  induction Hok as [|[s m] d ((Hs & _) & _ & Hm) _ IH]; simpl;
    [constructor|].
  inversion_clear Hcr as [|? ? [Hcs Hcm] Hcr']. simpl in *.
  constructor.
  { eexists. split; [reflexivity|].
    split; now apply written_header_free. }
  constructor; [exact written_blank_line|].
  rewrite <- app_assoc. apply Forall_app. split.
  - apply Forall_forall. intros l (kv & -> & Hkv)%list_elem_of_fmap.
    rewrite Forall_forall in Hm, Hcm.
    destruct (Hm _ Hkv) as ((_ & _ & Hk & _) & (_ & Hv & _) & _).
    destruct (Hcm _ Hkv) as [Hck Hcv].
    eexists. split; [reflexivity|].
    split; now apply written_item_free.
  - constructor; [exact written_blank_line | now apply IH].
Qed.

(** A well-formed document without carriage return and with short keys is
    read back from what [write_config] writes. *)
Lemma read_written_config (d : config) :
  config_ok d -> config_free carriage_return d ->
  (forall s m k v, (s, m) ∈ d -> (k, v) ∈ m -> (length k < 25)%nat) ->
  read_config (write_config d) = Ok d.
Proof.
  intros [Hnd Hok] Hcr Hshort. unfold read_config, write_config.
  rewrite file_lines_concat by now apply written_config_lines.
  destruct (read_written_sections d [] None Hnd Hok Hshort) as [sec H].
  unfold read_config_lines. now rewrite H.
Qed.

(** A file whose only key has 25 characters, the width of the key column,
    and the document read from it. *)
Definition wide_key : pystr := replicate 25 "k"%char.
Definition wide_key_file : pystr :=
  line (str "[Solver]") ++ line (wide_key ++ space :: str "hllc").
Definition wide_key_config : config :=
  [(str "Solver", [(wide_key, str "hllc")])].

(** C5. The round trip fails on a document read from a file and without
    empty section: its key fills the key column, [write_config] puts the
    value right after it, and [read_config] finds no space to split the
    written line at. *)
Lemma wide_key_not_read_back :
  read_config wide_key_file = Ok wide_key_config
  /\ (forall s m, (s, m) ∈ wide_key_config -> m <> [])
  /\ read_config (write_config wide_key_config) = Err ValueError.
Proof.
  split; [vm_compute; reflexivity|]. split; [|vm_compute; reflexivity].
  intros s m H. apply list_elem_of_singleton in H.
  injection H as _ ->. discriminate.
Qed.

(** With a space inside the value the written line is read, but cut
    inside the value: the document comes back with another key and
    another value. *)
Example wide_key_cut_elsewhere :
  read_config (line (str "[Solver]")
               ++ line (wide_key ++ space :: str "hll c"))
  = Ok [(str "Solver", [(wide_key, str "hll c")])]
  /\ read_config (write_config [(str "Solver", [(wide_key, str "hll c")])])
     = Ok [(str "Solver", [(wide_key ++ str "hll", str "c")])].
Proof. split; vm_compute; reflexivity. Qed.

(** X17. A document read from a file in which every key is shorter than
    the 25 characters of the key column is read back unchanged from what
    [write_config] writes: the same sections in the same order, each with
    the same keys in the same order and the same values. *)
Theorem config_roundtrip (file : pystr) (d : config) :
  read_config file = Ok d ->
  (forall s m k v, (s, m) ∈ d -> (k, v) ∈ m -> (length k < 25)%nat) ->
  read_config (write_config d) = Ok d.
Proof.
  intros Hread Hshort.
  apply read_written_config; [| |exact Hshort].
  - exact (read_config_ok file d Hread).
  - exact (read_config_free file d Hread).
Qed.

Lemma config_roundtrip_witness :
  read_config
    (write_config [(str "Grid", [(str "X1-grid", str "1 0.0 100 u 1.0")]);
                   (str "Time", [(str "CFL", str "0.4");
                                 (str "tstop", str "1.0")])])
  = Ok [(str "Grid", [(str "X1-grid", str "1 0.0 100 u 1.0")]);
        (str "Time", [(str "CFL", str "0.4"); (str "tstop", str "1.0")])].
Proof.
  apply (config_roundtrip
           (line (str "[Grid]") ++ line []
            ++ line (str "X1-grid    1 0.0 100 u 1.0")
            ++ line (str "[Time]") ++ line (str "CFL 0.4")
            ++ line (str "tstop  1.0  "))).
  - vm_compute; reflexivity.
  - intros s m k v H Hkv. apply list_elem_of_In in H. simpl in H.
    destruct H as [H|[H|[]]]; injection H as _ <-;
      apply list_elem_of_In in Hkv; simpl in Hkv.
    + destruct Hkv as [H|[]]. injection H as <- _. vm_compute; lia.
    + destruct Hkv as [H|[H|[]]]; injection H as <- _; vm_compute; lia.
Defined.

(** ** Numbers as text *)

Definition nonspace (c : ascii) : bool := negb (isspace c).

(** What the reader of a number relies on about a digit. *)
Lemma decimal_facts (c : ascii) :
  isdecimal c = true ->
  nonspace c = true /\ lower_char c = c
  /\ c <> "-"%char /\ c <> "+"%char /\ c <> "."%char /\ c <> "#"%char
  /\ c <> "i"%char /\ c <> "n"%char /\ c <> "_"%char.
Proof.
  destruct c as [[] [] [] [] [] [] [] []]; intros H; vm_compute in H;
    try discriminate H; clear H;
    repeat split; try reflexivity; discriminate.
Qed.

Lemma nonspace_one_line (s : pystr) :
  forallb nonspace s = true -> one_line s.
Proof.
  intros H. rewrite forallb_forall in H.
  split; intros Hin; apply list_elem_of_In, H in Hin; discriminate.
Qed.

Lemma decimal_nonspace (s : pystr) :
  forallb isdecimal s = true -> forallb nonspace s = true.
Proof.
  rewrite !forallb_forall. intros H c Hc. now apply decimal_facts, H.
Qed.

(** The white space of numbers is white space. *)
Lemma isspace_number_isspace (c : ascii) :
  isspace_number c = true -> isspace c = true.
Proof.
  destruct c as [[] [] [] [] [] [] [] []]; vm_compute; intros H;
    (reflexivity || discriminate H).
Qed.

(** A text without white space and underscores passes unchanged through
    the trimming and the ungrouping done by [int] and [float]. *)
Definition plain (c : ascii) : bool :=
  nonspace c && negb (bool_decide (c = "_"%char)).

Lemma decimal_plain (s : pystr) :
  forallb isdecimal s = true -> forallb plain s = true.
Proof.
  rewrite !forallb_forall. intros H c Hc.
  destruct (decimal_facts c (H c Hc)) as (Hs & _ & _ & _ & _ & _ & _ & _ & Hu).
  unfold plain. rewrite Hs. now rewrite bool_decide_eq_false_2.
Qed.

Lemma plain_nonspace (s : pystr) :
  forallb plain s = true -> forallb nonspace s = true.
Proof.
  rewrite !forallb_forall. intros H c Hc.
  now destruct (andb_prop _ _ (H c Hc)).
Qed.

Lemma strip_number_token (s : pystr) :
  forallb nonspace s = true -> strip_number s = s.
Proof.
  intros H. rewrite forallb_forall in H.
  assert (Hc : forall c, c ∈ s -> isspace_number c = false).
  { intros c Hc. apply list_elem_of_In, H, negb_true_iff in Hc.
    destruct (isspace_number c) eqn:E; [|reflexivity].
    apply isspace_number_isspace in E. congruence. }
  unfold strip_number, lstrip_with.
  assert (dropwhile isspace_number s = s) as ->.
  { destruct s as [|x s]; [reflexivity|].
    apply dropwhile_stop, Hc, list_elem_of_here. }
  apply rstrip_with_id. intros c Hl. apply Hc.
  destruct s as [|x s _] using rev_ind; [discriminate|].
  rewrite last_snoc in Hl. injection Hl as ->.
  rewrite elem_of_app, list_elem_of_singleton. auto.
Qed.

Lemma strip_number_line (s : pystr) :
  strip_number (line s) = strip_number s.
Proof.
  unfold strip_number, lstrip_with, line.
  rewrite dropwhile_snoc. destruct (forallb isspace_number s) eqn:E.
  - simpl. now rewrite dropwhile_all.
  - now rewrite rstrip_with_snoc.
Qed.

Lemma ungroup_plain (prev : ascii) (s : pystr) :
  forallb plain s = true -> ungroup prev s = Some s.
Proof.
  revert prev. induction s as [|c s IH]; intros prev H; [reflexivity|].
  simpl in *. apply andb_true_iff in H as [Hc H].
  apply andb_true_iff in Hc as [_ Hc]. apply negb_true_iff in Hc.
  rewrite Hc. now rewrite IH.
Qed.

(** A string without white space, followed by white space, is the first
    field of a line. *)
Lemma split_space (c : ascii) (s : pystr) :
  isspace c = true -> split (c :: s) = split s.
Proof. simpl. now intros ->. Qed.

Lemma split_token (w rest : pystr) (c : ascii) :
  w <> [] -> forallb nonspace w = true -> isspace c = true ->
  split (w ++ c :: rest) = w :: split rest.
Proof.
  intros Hw Hall Hc. induction w as [|x w IH]; [contradiction|].
  simpl in Hall. apply andb_true_iff in Hall as [Hx Hall].
  apply negb_true_iff in Hx.
  destruct w as [|y w].
  - simpl. now rewrite Hx, Hc.
  - change ((x :: y :: w) ++ c :: rest) with (x :: (y :: w) ++ c :: rest).
    assert (Hy : isspace y = false).
    { simpl in Hall. apply andb_true_iff in Hall as [Hy _].
      now apply negb_true_iff in Hy. }
    cbn [split]. rewrite Hx.
    change ((y :: w) ++ c :: rest) with (y :: w ++ c :: rest) at 1.
    cbv iota. rewrite Hy.
    rewrite IH by (discriminate || assumption). reflexivity.
Qed.

Lemma digit_char_decimal (d : Z) :
  0 <= d < 10 -> isdecimal (digit_char d) = true.
Proof.
  intros H.
  assert (d = 0 \/ d = 1 \/ d = 2 \/ d = 3 \/ d = 4 \/ d = 5 \/ d = 6
          \/ d = 7 \/ d = 8 \/ d = 9) as Hd by lia.
  repeat destruct Hd as [->|Hd]; try reflexivity. now subst.
Qed.

Lemma fixed_digits_decimal (n : nat) (v : Z) :
  forallb isdecimal (fixed_digits n v) = true.
Proof.
  revert v. induction n as [|n IH]; intros v; simpl; [reflexivity|].
  rewrite forallb_app, IH. simpl.
  rewrite digit_char_decimal; [reflexivity|].
  apply Z.mod_pos_bound. lia.
Qed.

Lemma fixed_digits_length (n : nat) (v : Z) :
  length (fixed_digits n v) = n.
Proof.
  revert v. induction n as [|n IH]; intros v; simpl; [reflexivity|].
  rewrite length_app, IH. simpl. lia.
Qed.

Lemma string_of_uint_decimal (u : Decimal.uint) :
  forallb isdecimal (str (NilEmpty.string_of_uint u)) = true.
Proof. induction u; simpl; auto. Qed.

(** The text of a non-negative integer: digits, at least one, and read
    back by [int]. *)
Lemma str_of_Z_decimal (z : Z) :
  0 <= z -> forallb isdecimal (str_of_Z z) = true /\ str_of_Z z <> [].
Proof.
  intros Hz. unfold str_of_Z.
  destruct z as [|p|p]; [split; [reflexivity | discriminate]| |lia].
  simpl. pose proof (DecimalPos.Unsigned.to_uint_nonnil p) as Hnil.
  pose proof (string_of_uint_decimal (Pos.to_uint p)) as Hdec.
  destruct (Pos.to_uint p); [contradiction|..];
    (split; [exact Hdec | discriminate]).
Qed.

Lemma take_sign_decimal (c : ascii) (s : pystr) :
  isdecimal c = true -> take_sign (c :: s) = (false, c :: s).
Proof.
  intros (_ & _ & Hm & Hp & _)%decimal_facts. unfold take_sign.
  now rewrite !bool_decide_eq_false_2.
Qed.

Lemma py_int_written (n : nat) :
  py_int (line (str_of_Z (Z.of_nat n))) = Ok (Z.of_nat n).
Proof.
  destruct (str_of_Z_decimal (Z.of_nat n)) as [Hdec Hne]; [lia|].
  pose proof (ungroup_plain space _ (decimal_plain _ Hdec)) as Hu.
  unfold py_int.
  rewrite strip_number_line, strip_number_token by now apply decimal_nonspace.
  destruct (str_of_Z (Z.of_nat n)) as [|c r] eqn:E; [contradiction|].
  simpl in Hdec. apply andb_true_iff in Hdec as [Hc _].
  apply decimal_facts in Hc as (_ & _ & Hm & Hp & _).
  rewrite !bool_decide_eq_false_2 by assumption.
  rewrite Hu, <- E. unfold str_of_Z, str.
  rewrite string_of_list_ascii_of_string.
  pose proof (DecimalZ.of_to (Z.of_nat n)) as Hz.
  destruct (Z.to_int (Z.of_nat n)) as [u|u] eqn:Eu.
  - simpl in *. rewrite NilZero.usu; [now rewrite Hz|].
    intros ->. destruct (Z.of_nat n); discriminate.
  - destruct (Z.of_nat n) eqn:En; try discriminate. lia.
Qed.

(** The reader on scientific notation: a digit, a point, more digits and
    a signed exponent. *)
Lemma scientific_plain (neg eneg : bool) (d0 : ascii) (ds ed : pystr) :
  isdecimal d0 = true -> forallb isdecimal ds = true ->
  forallb isdecimal ed = true ->
  forallb plain (fmt_sign neg ++ d0 :: "."%char :: ds
                 ++ "e"%char :: (if eneg then "-"%char else "+"%char) :: ed)
  = true.
Proof.
  intros Hd0 Hds Hed.
  pose proof (decimal_plain [d0]) as H0. simpl in H0.
  rewrite Hd0 in H0. specialize (H0 eq_refl).
  apply andb_true_iff in H0 as [H0 _].
  rewrite forallb_app. apply andb_true_iff. split; [now destruct neg|].
  simpl. rewrite H0. simpl. rewrite forallb_app.
  rewrite (decimal_plain ds Hds). simpl.
  rewrite (decimal_plain ed Hed). now destruct eneg.
Qed.

Lemma py_float_scientific (neg eneg : bool) (d0 : ascii)
    (ds ed : pystr) :
  isdecimal d0 = true -> forallb isdecimal ds = true ->
  forallb isdecimal ed = true -> ed <> [] ->
  py_float (fmt_sign neg ++ d0 :: "."%char :: ds
            ++ "e"%char :: (if eneg then "-"%char else "+"%char) :: ed)
  = Ok (decimal_to_float neg (d0 :: ds)
          ((if eneg then - digits_value ed else digits_value ed)
           - Z.of_nat (length ds))).
Proof.
  intros Hd0 Hds Hed Hne.
  pose proof (decimal_facts d0 Hd0)
    as (Hsp0 & Hlow & Hm & Hp & _ & _ & Hi & Hn & _).
  pose proof (scientific_plain neg eneg d0 ds ed Hd0 Hds Hed) as Hplain.
  set (tail := "e"%char :: (if eneg then "-"%char else "+"%char) :: ed)
    in *.
  unfold py_float.
  rewrite strip_number_token by now apply plain_nonspace.
  rewrite ungroup_plain by assumption. unfold float_literal.
  assert (take_sign (fmt_sign neg ++ d0 :: "."%char :: ds ++ tail)
          = (neg, d0 :: "."%char :: ds ++ tail)) as ->.
  { destruct neg; [reflexivity|]. now apply take_sign_decimal. }
  rewrite bool_decide_eq_false_2.
  2:{ simpl. rewrite Hlow. intros [[=]|[=]]; try congruence. }
  rewrite bool_decide_eq_false_2.
  2:{ simpl. rewrite Hlow. intros [=]; try congruence. }
  change (d0 :: "."%char :: ds ++ tail)
    with ([d0] ++ "."%char :: ds ++ tail).
  rewrite takewhile_app_stop, dropwhile_app_stop;
    [|simpl; now rewrite Hd0|reflexivity..|simpl; now rewrite Hd0|reflexivity].
  rewrite bool_decide_eq_true_2 by reflexivity.
  unfold tail. rewrite takewhile_app_stop, dropwhile_app_stop;
    [|assumption|reflexivity|assumption|reflexivity].
  simpl app. rewrite bool_decide_eq_true_2 by auto.
  assert (take_sign ((if eneg then "-"%char else "+"%char) :: ed)
          = (eneg, ed)) as -> by now destruct eneg.
  destruct ed as [|e0 ed]; [contradiction|]. now rewrite Hed.
Qed.

(** The three shapes of a formatted float. *)
Definition scientific (s : pystr) : Prop :=
  exists (neg eneg : bool) (d0 : ascii) (ds ed : pystr),
    s = fmt_sign neg ++ d0 :: "."%char :: ds
        ++ "e"%char :: (if eneg then "-"%char else "+"%char) :: ed
    /\ isdecimal d0 = true /\ forallb isdecimal ds = true
    /\ forallb isdecimal ed = true /\ ed <> [].

Lemma fmt_exp_shape (k : Z) :
  exists (eneg : bool) (ed : pystr),
    fmt_exp k = (if eneg then "-"%char else "+"%char) :: ed
    /\ forallb isdecimal ed = true /\ ed <> [].
Proof.
  destruct (str_of_Z_decimal (Z.abs k)) as [Hdec Hne]; [lia|].
  exists (k <? 0), ((if Z.abs k <? 10 then ["0"%char] else [])
                     ++ str_of_Z (Z.abs k)).
  split; [unfold fmt_exp; now destruct (k <? 0)|].
  split.
  - rewrite forallb_app, Hdec. now destruct (Z.abs k <? 10).
  - intros H. apply app_eq_nil in H as [_ H]. contradiction.
Qed.

Lemma fmt_12e_shape (x : float) :
  fmt_12e x = str "nan"
  \/ (exists neg : bool, fmt_12e x = fmt_sign neg ++ str "inf")
  \/ scientific (fmt_12e x).
Proof.
  unfold fmt_12e. destruct (Prim2SF x) as [neg|neg| |neg m e].
  - right. right. exists neg, false, "0"%char, (str "000000000000"),
      (str "00"). repeat split. discriminate.
  - right. left. now exists neg.
  - now left.
  - right. right. destruct (ratio_of_finite m e) as [num den].
    destruct (sci_digits num den) as [n k].
    destruct (fmt_exp_shape k) as (eneg & ed & -> & Hed & Hne).
    exists neg, eneg, (digit_char ((n / 10 ^ 12) mod 10)),
      (fixed_digits 12 n), ed.
    split; [reflexivity|]. split.
    { apply digit_char_decimal, Z.mod_pos_bound. lia. }
    split; [apply fixed_digits_decimal|]. now split.
Qed.

(** A formatted float has no white space and is read back as a float. *)
Lemma fmt_12e_token (x : float) :
  forallb nonspace (fmt_12e x) = true /\ fmt_12e x <> [].
Proof.
  destruct (fmt_12e_shape x)
    as [->|[[neg ->]|(neg & eneg & d0 & ds & ed & -> & H0 & Hds & Hed & _)]].
  - split; [reflexivity | discriminate].
  - destruct neg; (split; [reflexivity | discriminate]).
  - split; [|now destruct neg].
    rewrite forallb_app. apply andb_true_iff. split; [now destruct neg|].
    simpl. apply decimal_facts in H0 as [-> _]. simpl.
    rewrite forallb_app, (decimal_nonspace ds Hds). simpl.
    rewrite (decimal_nonspace ed Hed). now destruct eneg.
Qed.

Lemma py_float_fmt_12e (x : float) :
  exists y, py_float (fmt_12e x) = Ok y.
Proof.
  destruct (fmt_12e_shape x)
    as [->|[[neg ->]|(neg & eneg & d0 & ds & ed & -> & H0 & Hds & Hed & Hne)]].
  - now exists nan.
  - destruct neg; [now exists neg_infinity | now exists infinity].
  - rewrite py_float_scientific by assumption. eauto.
Qed.

(** ** C4: the header of the current format *)

Section ForM.
Context {A B : Type} (f : A -> result B).

Lemma forM_map (g : A -> B) (l : list A) :
  (forall x, x ∈ l -> f x = Ok (g x)) -> forM f l = Ok (map g l).
Proof.
  induction l as [|x l IH]; intros H; simpl; [reflexivity|].
  rewrite H by apply list_elem_of_here. simpl.
  rewrite IH; [reflexivity|].
  intros y Hy. apply H. now apply list_elem_of_further.
Qed.

Lemma forM_Forall2 (R : A -> B -> Prop) (l : list A) :
  (forall x, x ∈ l -> exists y, f x = Ok y /\ R x y) ->
  exists ys, forM f l = Ok ys /\ Forall2 R l ys.
Proof.
  induction l as [|x l IH]; intros H; simpl.
  - exists []. split; [reflexivity | constructor].
  - destruct (H x) as (y & Hy & Hxy); [apply list_elem_of_here|].
    destruct IH as (ys & Hys & Hall).
    { intros z Hz. apply H. now apply list_elem_of_further. }
    exists (y :: ys). rewrite Hy, Hys. split; [reflexivity|].
    now constructor.
Qed.
End ForM.

Lemma count_active_le (g : grid) : (count_active g <= 3)%nat.
Proof.
  unfold count_active.
  etransitivity; [apply List.filter_length_le|]. reflexivity.
Qed.

(** Counting over the values of the dictionary counts the axes. *)
Lemma count_active_keys (g : grid) :
  count_active g
  = length (List.filter (fun d => 1 <? length (getaxis g d))%nat keys).
Proof.
  unfold count_active, keys. simpl.
  destruct (1 <? length (x1 g))%nat, (1 <? length (x2 g))%nat,
    (1 <? length (x3 g))%nat; reflexivity.
Qed.

(** Indexing [keys] by position visits a prefix of the axes. *)
Lemma header_axes_prefix (g : grid) (n : nat) :
  (n <= 3)%nat ->
  forM (fun i => d ← getitem keys i; header_axis g d) (seq 0 n)
  = forM (header_axis g) (take n keys).
Proof.
  intros H. destruct n as [|[|[|[|n]]]]; [reflexivity..|lia].
Qed.

(** The axes described in the header. *)
Definition described (g : grid) : list dim := take (count_active g) keys.

(** What a descriptor line says about its axis. *)
Definition describes (g : grid) (d : dim) (l : pystr) : Prop :=
  exists xmin xmax,
    head (getaxis g d) = Some xmin /\ last (getaxis g d) = Some xmax
    /\ l = axis_descriptor d xmin xmax (length (getaxis g d)).

Lemma header_axis_describes (g : grid) (d : dim) :
  getaxis g d <> [] -> exists l, header_axis g d = Ok l /\ describes g d l.
Proof.
  intros H. unfold header_axis, getitem, getlast.
  destruct (getaxis g d) as [|c a] eqn:E; [contradiction|].
  destruct (last_nonempty (c :: a)) as [z Hz]; [discriminate|].
  cbn [lookup list_lookup]. rewrite Hz. simpl.
  eexists. split; [reflexivity|]. exists c, z. now rewrite E.
Qed.

(** The second axis alone has more than one point. *)
Definition x2_only_grid : grid :=
  Grid [0%float] [0%float; 1%float; 2%float] [0%float].

Definition x2_only_header : list pystr :=
  [banner;
   line (str "# PLUTO 4.2 Grid File");
   line (str "# Generated on  Mon Jul 10 10:10:10 2017");
   line (str "#");
   line (str "# DIMENSIONS: 1");
   line (str "# GEOMETRY:   CARTESIAN");
   line (str "# X1 [0.00000,  0.00000], 1 point(s), 3 ghosts");
   banner].

(** C4, as stated, fails: the only active axis is [x2], yet the one
    descriptor line of the header is that of [x1], which has one point,
    and no line describes [x2]. *)
Lemma inactive_axis_described :
  (1 < length (getaxis x2_only_grid X2))%nat
  /\ header_lines x2_only_grid (str "cartesian") = Ok x2_only_header
  /\ forall xmin xmax nx, axis_descriptor X2 xmin xmax nx ∉ x2_only_header.
Proof.
  split; [simpl; lia|]. split; [vm_compute; reflexivity|].
  intros xmin xmax nx H. apply list_elem_of_In in H.
  unfold x2_only_header, axis_descriptor in H. simpl in H.
  repeat destruct H as [H|H]; try discriminate H. exact H.
Qed.

(** The header of a grid without empty axis: the fixed lines, then the
    descriptors of the described axes, in order. *)
Lemma header_lines_axes (g : grid) (geometry : pystr) :
  (forall d, getaxis g d <> []) ->
  exists axes,
    header_lines g geometry
    = Ok ([banner;
           line (str "# PLUTO 4.2 Grid File");
           line (str "# Generated on  Mon Jul 10 10:10:10 2017");
           line (str "#");
           dimensions_line (count_active g);
           geometry_line geometry]
          ++ axes ++ [banner])
    /\ Forall2 (describes g) (described g) axes.
Proof.
  intros Hne.
  destruct (forM_Forall2 (header_axis g) (describes g) (described g))
    as (axes & Hrun & Hall).
  { intros d _. now apply header_axis_describes. }
  exists axes. split; [|exact Hall].
  unfold header_lines.
  rewrite header_axes_prefix by apply count_active_le.
  fold (described g). now rewrite Hrun.
Qed.

(** C4, amended. For a grid whose axes all have at least one point, the
    header of the current format states DIMENSIONS equal to the number
    [ndim] of axes with more than one point, and contains one descriptor
    line for each of the first [ndim] axes in the order x1, x2, x3, each
    giving that axis's identifier, first and last centre and point count.
    These are the active axes when the axes with more than one point come
    first. *)
Theorem header_lines_described (g : grid) (geometry : pystr) :
  (forall d, getaxis g d <> []) ->
  exists axes,
    header_lines g geometry
    = Ok ([banner;
           line (str "# PLUTO 4.2 Grid File");
           line (str "# Generated on  Mon Jul 10 10:10:10 2017");
           line (str "#");
           dimensions_line
             (length (List.filter
                        (fun d => 1 <? length (getaxis g d))%nat keys));
           geometry_line geometry]
          ++ axes ++ [banner])
    /\ Forall2 (describes g) (described g) axes
    /\ ((forall d, d ∈ described g <-> (1 < length (getaxis g d))%nat) ->
        forall d, (1 < length (getaxis g d))%nat ->
                  exists l, l ∈ axes /\ describes g d l).
Proof.
  intros Hne.
  destruct (header_lines_axes g geometry Hne) as (axes & Hrun & Hall).
  exists axes. split; [|split; [exact Hall|]].
  - now rewrite <- count_active_keys.
  - intros Hprefix d Hd. apply Hprefix in Hd.
    apply list_elem_of_lookup in Hd as [i Hi].
    destruct (Forall2_lookup_l _ _ _ _ _ Hall Hi) as (l & Hl & Hdl).
    exists l. split; [|exact Hdl].
    apply list_elem_of_lookup. eauto.
Qed.

Definition x1_x2_grid : grid :=
  Grid [0.5%float; 1.5%float] [0%float; 1%float; 2%float] [0%float].

Lemma header_lines_described_witness :
  exists axes,
    header_lines x1_x2_grid (str "polar")
    = Ok ([banner;
           line (str "# PLUTO 4.2 Grid File");
           line (str "# Generated on  Mon Jul 10 10:10:10 2017");
           line (str "#");
           dimensions_line
             (length (List.filter
                        (fun d => 1 <? length (getaxis x1_x2_grid d))%nat
                        keys));
           geometry_line (str "polar")]
          ++ axes ++ [banner])
    /\ Forall2 (describes x1_x2_grid) (described x1_x2_grid) axes
    /\ ((forall d, d ∈ described x1_x2_grid
                   <-> (1 < length (getaxis x1_x2_grid d))%nat) ->
        forall d, (1 < length (getaxis x1_x2_grid d))%nat ->
                  exists l, l ∈ axes /\ describes x1_x2_grid d l).
Proof.
  apply (header_lines_described x1_x2_grid (str "polar")).
  intros d. destruct d; discriminate.
Defined.

(** ** C3: an axis with a single point *)

Arguments fixed_digits : simpl never.

Lemma str_of_Z_nonspace (z : Z) : forallb nonspace (str_of_Z z) = true.
Proof.
  destruct (Z_lt_le_dec z 0) as [Hneg|Hpos].
  - destruct z as [|p|p]; try lia. unfold str_of_Z. simpl.
    pose proof (string_of_uint_decimal (Pos.to_uint p)) as H.
    apply decimal_nonspace in H.
    destruct (Pos.to_uint p); [reflexivity | exact H..].
  - now apply decimal_nonspace, str_of_Z_decimal.
Qed.

Lemma fmt_5f_nonspace (x : float) : forallb nonspace (fmt_5f x) = true.
Proof.
  unfold fmt_5f. destruct (Prim2SF x) as [neg|neg| |neg m e];
    try (now destruct neg); [reflexivity|].
  destruct (ratio_of_finite m e) as [num den].
  rewrite forallb_app, forallb_app, str_of_Z_nonspace.
  cbn [forallb].
  rewrite (decimal_nonspace _ (fixed_digits_decimal 5 _)).
  now destruct neg.
Qed.

(** Upper-casing makes no line end. *)
Lemma upper_char_linebreak (x c : ascii) :
  In c (upper_char x) -> linebreak c = true -> c = x.
Proof.
  destruct x as [[] [] [] [] [] [] [] []]; vm_compute;
    intros H Hc; repeat destruct H as [H|H]; try contradiction;
    subst c; (reflexivity || discriminate Hc).
Qed.

Lemma upper_one_line (s : pystr) : one_line s -> one_line (upper s).
Proof.
  intros [Hnl Hcr].
  assert (Hb : forall c, linebreak c = true -> c ∈ upper s -> c ∈ s).
  { intros c Hc Hin. apply list_elem_of_In, in_concat in Hin
      as (l & Hl & Hin).
    apply in_map_iff in Hl as (x & <- & Hx).
    rewrite (upper_char_linebreak x c Hin Hc).
    now apply list_elem_of_In. }
  split; intros Hin; [apply Hnl | apply Hcr]; now apply Hb.
Qed.

(** *** The lines of the header *)

Definition comment_line (l : pystr) : Prop :=
  written_line l /\ startswith "#"%char l = true.

Lemma constant_comment_line (body : pystr) :
  forallb (fun c => negb (linebreak c)) body = true ->
  startswith "#"%char body = true -> comment_line (line body).
Proof.
  intros Hb Hs. split.
  - exists body. split; [reflexivity | now apply one_line_forallb].
  - now destruct body.
Qed.

Lemma axis_descriptor_comment (d : dim) (xmin xmax : float) (nx : nat) :
  comment_line (axis_descriptor d xmin xmax nx).
Proof.
  split; [|reflexivity]. eexists. split; [reflexivity|].
  pose proof (nonspace_one_line _ (fmt_5f_nonspace xmin)).
  pose proof (nonspace_one_line _ (fmt_5f_nonspace xmax)).
  pose proof (nonspace_one_line _ (str_of_Z_nonspace (Z.of_nat nx))).
  assert (one_line (upper (dim_name d)))
    by (destruct d; now apply one_line_forallb).
  repeat (apply one_line_app;
          [first [assumption | now apply one_line_forallb]|]).
  now apply one_line_forallb.
Qed.

Lemma forM_outputs {A B} (f : A -> result B) (l : list A) (ys : list B) :
  forM f l = Ok ys -> Forall (fun y => exists x, f x = Ok y) ys.
Proof.
  revert ys. induction l as [|x l IH]; simpl; intros ys.
  - intros [= <-]. constructor.
  - intros (y & Hy & H)%bind_Ok_inv.
    apply bind_Ok_inv in H as (ys' & Hys & [= <-]).
    constructor; eauto.
Qed.

Lemma header_lines_comments (g : grid) (geometry : pystr)
    (hl : list pystr) :
  one_line geometry -> header_lines g geometry = Ok hl ->
  Forall comment_line hl.
Proof.
  intros Hgeo H. unfold header_lines in H.
  apply bind_Ok_inv in H as (axes & Haxes & [= <-]).
  apply forM_outputs in Haxes.
  repeat (constructor; [now apply constant_comment_line|]).
  constructor.
  { split; [|reflexivity]. eexists. split; [reflexivity|].
    apply one_line_app; [now apply one_line_forallb|].
    apply nonspace_one_line, str_of_Z_nonspace. }
  constructor.
  { split; [|reflexivity]. eexists. split; [reflexivity|].
    apply one_line_app; [now apply one_line_forallb|].
    now apply upper_one_line. }
  apply Forall_app. split.
  - eapply Forall_impl; [exact Haxes|]. simpl.
    intros l (i & Hl). apply bind_Ok_inv in Hl as (d & _ & Hl).
    unfold header_axis in Hl.
    apply bind_Ok_inv in Hl as (xmin & _ & Hl).
    apply bind_Ok_inv in Hl as (xmax & _ & [= <-]).
    apply axis_descriptor_comment.
  - constructor; [now apply constant_comment_line | constructor].
Qed.

(** *** The rows of an axis *)

Definition notbreak (c : ascii) : bool := negb (linebreak c).

Lemma nonspace_notbreak (s : pystr) :
  forallb nonspace s = true -> forallb notbreak s = true.
Proof.
  rewrite !forallb_forall. intros H c Hc. specialize (H c Hc).
  unfold notbreak, linebreak.
  repeat case_bool_decide; subst; (reflexivity || discriminate H).
Qed.

Lemma row_index_token (i : nat) :
  forallb nonspace (str_of_Z (Z.of_nat i + 1)) = true
  /\ str_of_Z (Z.of_nat i + 1) <> [].
Proof.
  destruct (str_of_Z_decimal (Z.of_nat i + 1)) as [H1 H2]; [lia|].
  split; [now apply decimal_nonspace | exact H2].
Qed.

Ltac flatten_row :=
  unfold line;
  repeat (rewrite <- app_assoc || rewrite <- app_comm_cons).

Ltac split_fields :=
  repeat first
    [ rewrite split_space by reflexivity
    | rewrite split_token
        by (reflexivity || apply fmt_12e_token || apply row_index_token) ].

Lemma grid_row_fields (pluto4 : bool) (i : nat) (L R : float) :
  split (grid_row pluto4 i L R)
  = if pluto4
    then [str_of_Z (Z.of_nat i + 1); fmt_12e L; fmt_12e R]
    else [str_of_Z (Z.of_nat i + 1); fmt_12e L;
          fmt_12e (0.5 * (R + L))%float; fmt_12e R; fmt_12e (R - L)%float].
Proof.
  unfold grid_row. destruct pluto4; flatten_row; split_fields; reflexivity.
Qed.

Lemma grid_row_written (pluto4 : bool) (i : nat) (L R : float) :
  written_line (grid_row pluto4 i L R).
Proof.
  pose proof (fun x => nonspace_notbreak _ (proj1 (fmt_12e_token x))) as Hf.
  pose proof (nonspace_notbreak _ (proj1 (row_index_token i))) as Hi.
  unfold grid_row. destruct pluto4; (eexists; split; [reflexivity|]);
    apply one_line_forallb; fold notbreak;
    repeat first [ rewrite forallb_app | rewrite Hf | rewrite Hi
                 | progress cbn [forallb] ];
    reflexivity.
Qed.

(** Every row written is converted by the reader. *)
Lemma grid_row_read (pluto4 : bool) (i : nat) (L R : float) :
  exists v, process_grid_line (grid_row pluto4 i L R) = Ok v.
Proof.
  pose proof (grid_row_fields pluto4 i L R) as Hs. destruct pluto4.
  - rewrite (process_grid_line_not5 _ _ _ _ _ Hs) by (simpl; lia).
    unfold midpoint_of.
    destruct (py_float_fmt_12e L) as [a ->].
    destruct (py_float_fmt_12e R) as [b ->]. simpl. eauto.
  - rewrite (process_grid_line_5 _ _ _ _ _ _ Hs).
    apply py_float_fmt_12e.
Qed.

Definition data_row (pluto4 : bool) (row : pystr) : Prop :=
  exists i L R, row = grid_row pluto4 i L R.

(** The edges computed for an axis cover its points. *)
Lemma axis_edges_ok (a : list float) :
  exists lefts rights,
    axis_edges a = Ok (lefts, rights)
    /\ (length a <= length lefts)%nat /\ (length a <= length rights)%nat.
Proof.
  unfold axis_edges. destruct a as [|c0 [|c1 a]]; simpl.
  - exists [0%float], [1%float]. repeat split; simpl; lia.
  - exists [0%float], [1%float]. repeat split; simpl; lia.
  - eexists _, _. split; [reflexivity|]. simpl.
    rewrite !length_map. lia.
Qed.

(** The block of an axis: its count line, then one row per point. *)
Lemma axis_lines_rows (pluto4 : bool) (a : list float) :
  exists rows,
    axis_lines pluto4 a
    = Ok (line (str_of_Z (Z.of_nat (length a))) :: rows)
    /\ length rows = length a /\ Forall (data_row pluto4) rows.
Proof.
  unfold axis_lines.
  destruct (axis_edges_ok a) as (lefts & rights & -> & Hl & Hr).
  rewrite bind_Ok. cbv beta iota.
  rewrite (forM_map _ (fun i => grid_row pluto4 i (nth i lefts 0%float)
                                  (nth i rights 0%float))).
  - eexists. split; [reflexivity|]. split.
    + now rewrite length_map, length_seq.
    + apply Forall_forall. intros row (i & -> & _)%list_elem_of_fmap.
      now exists i, (nth i lefts 0%float), (nth i rights 0%float).
  - intros i Hi. apply elem_of_seq in Hi.
    rewrite (getitem_Ok lefts i (nth i lefts 0%float)).
    2:{ destruct (nth_lookup_or_length lefts i 0%float); [assumption|lia]. }
    rewrite bind_Ok.
    rewrite (getitem_Ok rights i (nth i rights 0%float)); [reflexivity|].
    destruct (nth_lookup_or_length rights i 0%float); [assumption|lia].
Qed.


(** The block written for an axis, as the reader sees it: whole lines,
    the first of which is no comment, from which [read_axis] takes the
    values [vs] and leaves what follows. *)
Definition block_read_back (block : list pystr) (vs : list float) : Prop :=
  Forall written_line block
  /\ (exists h t, block = h :: t /\ startswith "#"%char h = false)
  /\ forall rest, read_axis (block ++ rest) = Ok (vs, rest).

Lemma count_line_written (n : nat) :
  written_line (line (str_of_Z (Z.of_nat n)))
  /\ startswith "#"%char (line (str_of_Z (Z.of_nat n))) = false.
Proof.
  destruct (str_of_Z_decimal (Z.of_nat n)) as [Hdec Hne]; [lia|]. split.
  - eexists. split; [reflexivity|].
    now apply nonspace_one_line, decimal_nonspace.
  - destruct (str_of_Z (Z.of_nat n)) as [|c s]; [contradiction|].
    simpl in Hdec. apply andb_true_iff in Hdec as [Hc _].
    apply decimal_facts in Hc as (_ & _ & _ & _ & _ & Hc & _).
    simpl. now apply bool_decide_eq_false_2.
Qed.



Lemma comment_lines_skipped (hl : list pystr) (h : pystr)
    (t : list pystr) :
  Forall comment_line hl -> startswith "#"%char h = false ->
  dropwhile (startswith "#"%char) (hl ++ h :: t) = h :: t.
Proof.
  intros Hhl Hh. apply dropwhile_app_stop; [|exact Hh].
  apply forallb_forall. intros l Hl.
  rewrite Forall_forall in Hhl. now apply Hhl, list_elem_of_In.
Qed.



(** The grid of the specification: three points along [x1], one along
    [x2] and [x3], here with centres that are not 0.5. *)
Definition slab_grid : grid :=
  Grid [0.5%float; 1.5%float; 2.5%float] [7%float] [(-3)%float].


(** The placeholder row of the current and of the legacy format. *)
Example placeholder_rows :
  grid_row true 0 0%float 1%float
  = line (space :: str "1" ++ tab :: str "0.000000000000e+00"
          ++ tab :: str "1.000000000000e+00")
  /\ grid_row false 0 0%float 1%float
     = line (space :: str "1" ++ tab :: str "0.000000000000e+00"
             ++ tab :: str "5.000000000000e-01"
             ++ tab :: str "1.000000000000e+00"
             ++ tab :: str "1.000000000000e+00").
Proof. split; vm_compute; reflexivity. Qed.

(** ** C2: the centres read back

    What [read_grid] returns for each centre of a grid that [write_grid]
    wrote: the value recomputed from the two edges of the cell as they
    were rounded and printed. *)

(** [grid[dim][1] - grid[dim][0]], the spacing the writer uses for every
    cell of the axis. *)
Definition first_spacing (a : list float) : float :=
  (nth 1 a 0 - nth 0 a 0)%float.

(** The edges of the cell of centre [c]: the centre minus and plus half
    the spacing, rounded to 12 decimals. *)
Definition cell_edges (dx c : float) : float * float :=
  ((around12 (c - dx / 2) + 0)%float, (around12 (c + dx / 2) + 0)%float).

(** The centre read from the row of the edges [L] and [R]: in the current
    format the midpoint of the two edges as printed, in the legacy format
    the midpoint of the two edges, printed and read. *)
Definition center_of_row (pluto4 : bool) (L R : float) : result float :=
  if pluto4 then midpoint_of (fmt_12e L) (fmt_12e R)
  else py_float (fmt_12e (0.5 * (R + L))%float).

(** The edges written for the centre [c] of the axis [a]. *)
Definition axis_edge_pair (a : list float) (c : float) : float * float :=
  if (1 <? length a)%nat then cell_edges (first_spacing a) c
  else (0%float, 1%float).

(** The centre [c'] read back for the centre [c] of the axis [a]. *)
Definition read_back (pluto4 : bool) (a : list float) (c c' : float)
  : Prop :=
  center_of_row pluto4 (axis_edge_pair a c).1 (axis_edge_pair a c).2
  = Ok c'.

Lemma axis_edges_pairs (a : list float) :
  exists lefts rights,
    axis_edges a = Ok (lefts, rights)
    /\ forall i c, a !! i = Some c ->
         lefts !! i = Some (axis_edge_pair a c).1
         /\ rights !! i = Some (axis_edge_pair a c).2.
Proof.
  unfold axis_edges, axis_edge_pair, cell_edges, first_spacing.
  destruct a as [|c0 [|c1 a]].
  - exists [0%float], [1%float]. split; [reflexivity|]. now intros [|i] c.
  - exists [0%float], [1%float]. split; [reflexivity|].
    intros [|i] c; [|discriminate]. simpl. now intros [= <-].
  - eexists _, _. split; [reflexivity|].
    intros i c Hc. rewrite !list_lookup_fmap, Hc. now split.
Qed.

Lemma grid_row_value (pluto4 : bool) (i : nat) (L R : float) :
  process_grid_line (grid_row pluto4 i L R) = center_of_row pluto4 L R.
Proof.
  pose proof (grid_row_fields pluto4 i L R) as Hs.
  unfold center_of_row. destruct pluto4.
  - now rewrite (process_grid_line_not5 _ _ _ _ _ Hs) by (simpl; lia).
  - now rewrite (process_grid_line_5 _ _ _ _ _ _ Hs).
Qed.

(** The row written for a centre. *)
Definition row_of (pluto4 : bool) (a : list float) (c : float)
    (row : pystr) : Prop :=
  exists i, row = grid_row pluto4 i (axis_edge_pair a c).1
                    (axis_edge_pair a c).2.

Lemma axis_lines_exact (pluto4 : bool) (a : list float) :
  exists rows,
    axis_lines pluto4 a
    = Ok (line (str_of_Z (Z.of_nat (length a))) :: rows)
    /\ Forall2 (row_of pluto4 a) a rows.
Proof.
  unfold axis_lines.
  destruct (axis_edges_pairs a) as (lefts & rights & -> & Hedges).
  rewrite bind_Ok. cbv beta iota.
  rewrite (forM_map _ (fun i => grid_row pluto4 i (nth i lefts 0%float)
                                  (nth i rights 0%float))).
  - eexists. split; [reflexivity|].
    apply Forall2_same_length_lookup_2.
    { now rewrite length_map, length_seq. }
    intros i c row Hc Hrow.
    rewrite list_lookup_fmap in Hrow.
    destruct (seq 0 (length a) !! i) as [j|] eqn:Hj; [|discriminate].
    apply lookup_seq in Hj as [-> _]. injection Hrow as <-.
    destruct (Hedges i c Hc) as [Hl Hr]. exists i. simpl.
    now rewrite (nth_lookup_Some _ _ _ _ Hl), (nth_lookup_Some _ _ _ _ Hr).
  - intros i Hi. apply elem_of_seq in Hi.
    destruct (lookup_lt_is_Some_2 a i) as [c Hc]; [lia|].
    destruct (Hedges i c Hc) as [Hl Hr].
    rewrite (getitem_Ok lefts i (nth i lefts 0%float))
      by now rewrite (nth_lookup_Some _ _ _ _ Hl).
    rewrite bind_Ok.
    now rewrite (getitem_Ok rights i (nth i rights 0%float))
      by now rewrite (nth_lookup_Some _ _ _ _ Hr).
Qed.

Lemma read_points_centers (pluto4 : bool) (a0 a : list float)
    (rows : list pystr) :
  Forall2 (row_of pluto4 a0) a rows ->
  exists vs,
    Forall2 (read_back pluto4 a0) a vs
    /\ forall rest, read_points (length rows) (rows ++ rest) = Ok (vs, rest).
Proof.
  induction 1 as [|c row a rows [i ->] _ (vs & Hall & IH)].
  - exists []. split; [constructor | reflexivity].
  - destruct (grid_row_read pluto4 i (axis_edge_pair a0 c).1
                (axis_edge_pair a0 c).2) as [v Hv].
    exists (v :: vs). split.
    + constructor; [|exact Hall]. unfold read_back.
      now rewrite <- grid_row_value with (i := i).
    + intros rest. simpl. rewrite Hv. simpl. now rewrite IH.
Qed.

Lemma axis_block_read_centers (pluto4 : bool) (a : list float) :
  exists block vs,
    axis_lines pluto4 a = Ok block /\ block_read_back block vs
    /\ Forall2 (read_back pluto4 a) a vs.
Proof.
  destruct (axis_lines_exact pluto4 a) as (rows & Hlines & Hrows).
  destruct (count_line_written (length a)) as [Hcw Hcs].
  destruct (read_points_centers pluto4 a a rows Hrows) as (vs & Hvs & Hpts).
  pose proof (Forall2_length _ _ _ Hrows) as Hlen.
  eexists _, vs. split; [exact Hlines|]. split; [|exact Hvs].
  split; [|split].
  - constructor; [exact Hcw|].
    apply Forall_forall. intros row Hrow.
    apply list_elem_of_lookup in Hrow as [i Hi].
    destruct (Forall2_lookup_r _ _ _ _ _ Hrows Hi) as (c & _ & j & ->).
    apply grid_row_written.
  - eauto.
  - intros rest. simpl. rewrite py_int_written. simpl.
    destruct (Z.ltb_spec (Z.of_nat (length a)) 0) as [Hlt|_]; [lia|].
    rewrite Nat2Z.id, Hlen. apply Hpts.
Qed.

(** What [write_grid] writes for a grid without empty axis is read by
    [read_grid], and each centre read is the one recomputed from the
    edges written for it. *)
Lemma write_read_grid_exact (g : grid) (pluto4 : bool) (geometry : pystr) :
  (forall d, getaxis g d <> []) -> one_line geometry ->
  exists file g',
    write_grid g pluto4 geometry = Ok file /\ read_grid file = Ok g'
    /\ forall d, Forall2 (read_back pluto4 (getaxis g d))
                   (getaxis g d) (getaxis g' d).
Proof.
  intros Hne Hgeo.
  assert (exists hl,
             (if pluto4 then write_grid_header g geometry else Ok [])
             = Ok (concat hl) /\ Forall comment_line hl)
    as (hl & Hheader & Hhl).
  { destruct pluto4; [|exists []; split; [reflexivity | constructor]].
    destruct (header_lines_axes g geometry Hne) as (axes & Hh & _).
    eexists. unfold write_grid_header. rewrite Hh. split; [reflexivity|].
    now apply (header_lines_comments g geometry). }
  destruct (axis_block_read_centers pluto4 (x1 g))
    as (b1 & v1 & Hb1 & (Hw1 & (h1 & t1 & -> & Hs1) & Hr1) & Hc1).
  destruct (axis_block_read_centers pluto4 (x2 g))
    as (b2 & v2 & Hb2 & (Hw2 & _ & Hr2) & Hc2).
  destruct (axis_block_read_centers pluto4 (x3 g))
    as (b3 & v3 & Hb3 & (Hw3 & _ & Hr3) & Hc3).
  exists (concat (hl ++ (h1 :: t1) ++ b2 ++ b3)), (Grid v1 v2 v3).
  split; [|split].
  - unfold write_grid. rewrite Hheader. simpl.
    rewrite Hb1, Hb2, Hb3. simpl.
    now rewrite app_nil_r, (concat_app hl).
  - unfold read_grid. rewrite file_lines_concat.
    2:{ rewrite !Forall_app. repeat split; try assumption.
        eapply Forall_impl; [exact Hhl|]. now intros l [Hl _]. }
    change ((h1 :: t1) ++ b2 ++ b3) with (h1 :: t1 ++ b2 ++ b3).
    rewrite comment_lines_skipped by assumption.
    change (h1 :: t1 ++ b2 ++ b3) with ((h1 :: t1) ++ b2 ++ b3).
    rewrite Hr1. simpl. rewrite Hr2. simpl.
    rewrite <- (app_nil_r b3), Hr3. reflexivity.
  - intros d. now destruct d.
Qed.




(** Three points along [x1], two along [x2] and [x3]. *)
Definition box_grid : grid :=
  Grid [0.5%float; 1.5%float; 2.5%float] [0%float; 1%float]
    [0%float; 2%float].


(** Centres whose edges have few decimals come back as they were. *)
Example box_grid_roundtrip :
  (f ← write_grid box_grid true (str "spherical"); read_grid f)
  = Ok box_grid
  /\ (f ← write_grid box_grid false (str "spherical"); read_grid f)
     = Ok box_grid.
Proof. split; vm_compute; reflexivity. Qed.

(** ** Worked examples *)

(** Numbers through [float] and the two formats. *)
Example float_text_examples :
  py_float (str "3.0856775807e18") = Ok CONST_pc
  /\ fmt_12e time2yrs = str "9.784619421296e+05"
  /\ (x ← py_float (str " 0.1 "); Ok (fmt_12e x))
     = Ok (str "1.000000000000e-01")
  /\ (x ← py_float (str "-2.5e-3"); Ok (fmt_5f x)) = Ok (str "-0.00250")
  /\ fmt_5f 2.5%float = str "2.50000"
  /\ py_float (str "1e400") = Ok infinity
  /\ py_float (str "1.5.2") = Err ValueError.
Proof. repeat split; vm_compute; reflexivity. Qed.

(** The grid with centres 0.5, 1.5, 2.5 along [x1] and one point along
    [x2] and [x3]: the header announces one dimension and three points,
    and the cells of [x1] have the edges 0-1, 1-2 and 2-3. *)
Example write_grid_example :
  write_grid (Grid [0.5%float; 1.5%float; 2.5%float] [0%float] [0%float])
    true (str "cartesian")
  = Ok (concat
          [banner;
           line (str "# PLUTO 4.2 Grid File");
           line (str "# Generated on  Mon Jul 10 10:10:10 2017");
           line (str "#");
           line (str "# DIMENSIONS: 1");
           line (str "# GEOMETRY:   CARTESIAN");
           line (str "# X1 [0.50000,  2.50000], 3 point(s), 3 ghosts");
           banner;
           line (str "3");
           line (space :: str "1" ++ tab :: str "0.000000000000e+00"
                 ++ tab :: str "1.000000000000e+00");
           line (space :: str "2" ++ tab :: str "1.000000000000e+00"
                 ++ tab :: str "2.000000000000e+00");
           line (space :: str "3" ++ tab :: str "2.000000000000e+00"
                 ++ tab :: str "3.000000000000e+00");
           line (str "1");
           line (space :: str "1" ++ tab :: str "0.000000000000e+00"
                 ++ tab :: str "1.000000000000e+00");
           line (str "1");
           line (space :: str "1" ++ tab :: str "0.000000000000e+00"
                 ++ tab :: str "1.000000000000e+00")]).
Proof. vm_compute; reflexivity. Qed.

(** A section without pairs is written as its header and two blank lines
    and read back as an empty map. *)
Example empty_section_example :
  write_config [(str "Empty", [])]
  = line (str "[Empty]") ++ line [] ++ line []
  /\ read_config (write_config [(str "Empty", [])])
     = Ok [(str "Empty", [])].
Proof. split; vm_compute; reflexivity. Qed.

(** * Further properties of the readers and writers *)

(** ** Reading a grid: comments, shape and failures *)

(** X18. The conversion of a data line raises nothing but [IndexError]
    (the line has too few fields) or [ValueError] (a field is not a
    number). *)
Theorem process_grid_line_error (ln : pystr) (e : exn) :
  process_grid_line ln = Err e -> e = IndexError \/ e = ValueError.
Proof.
  unfold process_grid_line, getitem.
  case_bool_decide as Hfive.
  - destruct (split ln !! 2%nat); simpl; [|intros [= <-]; auto].
    intros H%py_float_error. auto.
  - destruct (split ln !! 1%nat) as [f2|]; simpl; [|intros [= <-]; auto].
    destruct (py_float f2) eqn:E1; simpl;
      [|intros [= <-]; apply py_float_error in E1; auto].
    destruct (split ln !! 2%nat) as [f3|]; simpl; [|intros [= <-]; auto].
    destruct (py_float f3) eqn:E2; simpl;
      [discriminate|intros [= <-]; apply py_float_error in E2; auto].
Qed.

Lemma process_grid_line_error_witness :
  IndexError = IndexError \/ IndexError = ValueError.
Proof.
  apply (process_grid_line_error (line (str " 1 0.0")) IndexError).
  vm_compute; reflexivity.
Defined.

Definition truncated_grid_file : pystr :=
  line (str "# a grid cut short") ++ line (str "2")
  ++ line (str " 1 0.0 1.0").

(** X2. A comment line in front of a grid file changes nothing: the
    leading lines that start with [#] are skipped.  The comment is one
    line: its text holds neither a newline nor a carriage return. *)
Theorem read_grid_skips_comment (body file : pystr) :
  newline ∉ body -> carriage_return ∉ body ->
  read_grid (line ("#"%char :: body) ++ file) = read_grid file.
Proof.
  intros Hnl Hcr. unfold read_grid. rewrite file_lines_line.
  - reflexivity.
  - apply not_elem_of_cons. split; [discriminate | exact Hnl].
  - apply not_elem_of_cons. split; [discriminate | exact Hcr].
Qed.

Lemma read_grid_skips_comment_witness :
  read_grid (line ("#"%char :: str " GEOMETRY:   POLAR")
             ++ truncated_grid_file)
  = read_grid truncated_grid_file.
Proof.
  apply (read_grid_skips_comment (str " GEOMETRY:   POLAR")).
  - apply (bool_decide_unpack _). vm_compute. exact I.
  - apply (bool_decide_unpack _). vm_compute. exact I.
Defined.

(** What a successful read of [n] data lines took from the iterator. *)
Lemma read_points_inv (n : nat) (lines rest : list pystr)
    (vs : list float) :
  read_points n lines = Ok (vs, rest) ->
  exists rows,
    lines = rows ++ rest /\ length vs = n
    /\ Forall2 (fun row v => process_grid_line row = Ok v) rows vs.
Proof.
  revert lines vs. induction n as [|n IH]; intros lines vs; simpl.
  - intros [= <- <-]. exists []. repeat split. constructor.
  - destruct lines as [|h t]; [discriminate|].
    intros (v & Hv & H)%bind_Ok_inv.
    apply bind_Ok_inv in H as ([vs' rest'] & Hrec & [= <- <-]).
    destruct (IH _ _ Hrec) as (rows & -> & Hlen & Hall).
    exists (h :: rows). repeat split; [simpl; now rewrite Hlen|].
    now constructor.
Qed.

Lemma read_axis_inv (lines rest : list pystr) (vs : list float) :
  read_axis lines = Ok (vs, rest) ->
  exists h rows,
    lines = h :: rows ++ rest /\ py_int h = Ok (Z.of_nat (length vs))
    /\ Forall2 (fun row v => process_grid_line row = Ok v) rows vs.
Proof.
  unfold read_axis. destruct lines as [|h t]; [discriminate|].
  intros (n & Hn & H)%bind_Ok_inv.
  destruct (Z.ltb_spec n 0) as [|Hpos]; [discriminate|].
  apply read_points_inv in H as (rows & -> & Hlen & Hall).
  exists h, rows. repeat split; [|exact Hall].
  now rewrite Hn, Hlen, Z2Nat.id.
Qed.

(** X3. When [read_grid] returns a grid, the file, after its leading
    comment lines, consists of three blocks and possibly more lines: each
    block is a line holding the number of points of its axis followed by
    that many data lines, and each centre of the axis is the conversion of
    the data line at its position. *)
Theorem read_grid_shape (file : pystr) (g : grid) :
  read_grid file = Ok g ->
  exists h1 rows1 h2 rows2 h3 rows3 rest,
    dropwhile (startswith "#"%char) (file_lines file)
    = h1 :: rows1 ++ h2 :: rows2 ++ h3 :: rows3 ++ rest
    /\ py_int h1 = Ok (Z.of_nat (length (x1 g)))
    /\ py_int h2 = Ok (Z.of_nat (length (x2 g)))
    /\ py_int h3 = Ok (Z.of_nat (length (x3 g)))
    /\ Forall2 (fun row v => process_grid_line row = Ok v) rows1 (x1 g)
    /\ Forall2 (fun row v => process_grid_line row = Ok v) rows2 (x2 g)
    /\ Forall2 (fun row v => process_grid_line row = Ok v) rows3 (x3 g).
Proof.
  unfold read_grid.
  intros ([a1 l1] & H1 & H)%bind_Ok_inv.
  apply bind_Ok_inv in H as ([a2 l2] & H2 & H).
  apply bind_Ok_inv in H as ([a3 l3] & H3 & [= <-]).
  apply read_axis_inv in H1 as (h1 & rows1 & -> & Hn1 & Hr1).
  apply read_axis_inv in H2 as (h2 & rows2 & -> & Hn2 & Hr2).
  apply read_axis_inv in H3 as (h3 & rows3 & -> & Hn3 & Hr3).
  now exists h1, rows1, h2, rows2, h3, rows3, l3.
Qed.

(** A file with one point per axis, in the legacy layout, and one more
    line after the third block. *)
Definition small_grid_file : pystr :=
  line (str "# legacy grid") ++ line (str "1")
  ++ line (str " 1 0.0 0.5 1.0 1.0") ++ line (str "1")
  ++ line (str " 1 2.0 2.5 3.0 1.0") ++ line (str "1")
  ++ line (str " 1 4.0 4.5 5.0 1.0") ++ line (str "trailing text").

Definition small_grid : grid := Grid [0.5%float] [2.5%float] [4.5%float].

Lemma read_grid_shape_witness :
  exists h1 rows1 h2 rows2 h3 rows3 rest,
    dropwhile (startswith "#"%char) (file_lines small_grid_file)
    = h1 :: rows1 ++ h2 :: rows2 ++ h3 :: rows3 ++ rest
    /\ py_int h1 = Ok (Z.of_nat (length (x1 small_grid)))
    /\ py_int h2 = Ok (Z.of_nat (length (x2 small_grid)))
    /\ py_int h3 = Ok (Z.of_nat (length (x3 small_grid)))
    /\ Forall2 (fun row v => process_grid_line row = Ok v) rows1
         (x1 small_grid)
    /\ Forall2 (fun row v => process_grid_line row = Ok v) rows2
         (x2 small_grid)
    /\ Forall2 (fun row v => process_grid_line row = Ok v) rows3
         (x3 small_grid).
Proof.
  apply (read_grid_shape small_grid_file small_grid).
  vm_compute; reflexivity.
Defined.

Lemma read_points_more (n : nat) (lines rest more : list pystr)
    (vs : list float) :
  read_points n lines = Ok (vs, rest) ->
  read_points n (lines ++ more) = Ok (vs, rest ++ more).
Proof.
  intros (rows & -> & <- & Hall)%read_points_inv.
  rewrite <- app_assoc. clear -Hall.
  induction Hall as [|row v rows vs Hv _ IH]; simpl; [reflexivity|].
  rewrite Hv. simpl. now rewrite IH.
Qed.

Lemma read_axis_more (lines rest more : list pystr) (vs : list float) :
  read_axis lines = Ok (vs, rest) ->
  read_axis (lines ++ more) = Ok (vs, rest ++ more).
Proof.
  unfold read_axis. destruct lines as [|h t]; [discriminate|]. simpl.
  destruct (py_int h) as [n|]; simpl; [|discriminate].
  destruct (n <? 0); [discriminate|]. apply read_points_more.
Qed.

Lemma dropwhile_app_more {A} (p : A -> bool) (l more : list A) :
  dropwhile p l <> [] -> dropwhile p (l ++ more) = dropwhile p l ++ more.
Proof.
  induction l as [|x l IH]; simpl; [contradiction|].
  destruct (p x); [exact IH | reflexivity].
Qed.

(** X4. Whatever follows the third block of a grid file is ignored: text
    appended to a file that is read, and that ends with a newline, does
    not change the grid returned. *)
Theorem read_grid_ignores_trailing (file extra : pystr) (g : grid) :
  whole_lines file -> read_grid file = Ok g ->
  read_grid (file ++ extra) = Ok g.
Proof.
  intros Hfile. unfold read_grid. rewrite file_lines_app by assumption.
  intros ([a1 l1] & H1 & H)%bind_Ok_inv.
  apply bind_Ok_inv in H as ([a2 l2] & H2 & H).
  apply bind_Ok_inv in H as ([a3 l3] & H3 & [= <-]).
  rewrite dropwhile_app_more.
  2:{ intros E. rewrite E in H1. discriminate. }
  rewrite (read_axis_more _ _ (file_lines extra) _ H1). simpl.
  rewrite (read_axis_more _ _ (file_lines extra) _ H2). simpl.
  now rewrite (read_axis_more _ _ (file_lines extra) _ H3).
Qed.

Lemma read_grid_ignores_trailing_witness :
  read_grid (small_grid_file ++ str "9 nine more") = Ok small_grid.
Proof.
  apply (read_grid_ignores_trailing small_grid_file (str "9 nine more")).
  - right. vm_compute; reflexivity.
  - vm_compute; reflexivity.
Defined.

Lemma read_points_short (n : nat) (lines : list pystr) :
  (length lines < n)%nat -> exists e, read_points n lines = Err e.
Proof.
  revert lines. induction n as [|n IH]; intros lines Hlen; [lia|].
  simpl. destruct lines as [|h t]; [eauto|].
  destruct (process_grid_line h) as [v|e] eqn:E; simpl; [|eauto].
  destruct (IH t) as (e & ->); [simpl in Hlen; lia|].
  simpl. eauto.
Qed.

(** X5. A file whose first block announces more points than there are
    lines left is not read: [read_grid] raises an exception instead of
    returning a grid. *)
Theorem read_grid_missing_lines (file h : pystr) (t : list pystr) (n : Z) :
  dropwhile (startswith "#"%char) (file_lines file) = h :: t ->
  py_int h = Ok n -> Z.of_nat (length t) < n ->
  exists e, read_grid file = Err e.
Proof.
  intros Hlines Hn Hlen. unfold read_grid. rewrite Hlines.
  unfold read_axis. rewrite Hn. simpl.
  destruct (Z.ltb_spec n 0) as [|Hpos]; [lia|].
  destruct (read_points_short (Z.to_nat n) t) as (e & ->); [lia|].
  simpl. eauto.
Qed.

Lemma read_grid_missing_lines_witness :
  exists e, read_grid truncated_grid_file = Err e.
Proof.
  apply (read_grid_missing_lines truncated_grid_file (line (str "2"))
           [line (str " 1 0.0 1.0")] 2).
  - vm_compute; reflexivity.
  - vm_compute; reflexivity.
  - simpl. lia.
Defined.

(** ** Writing a grid: when it fails, and what is read back *)

Section ForMErrors.
Context {A B : Type} (f : A -> result B).

Lemma forM_Err_inv (l : list A) (e : exn) :
  forM f l = Err e -> exists x, x ∈ l /\ f x = Err e.
Proof.
  induction l as [|x l IH]; simpl; [discriminate|].
  destruct (f x) as [y|e'] eqn:E; simpl.
  - destruct (forM f l) as [ys|e'']; simpl; [discriminate|].
    intros [= <-]. destruct IH as (z & Hz & Hfz); [reflexivity|].
    exists z. split; [now apply list_elem_of_further | exact Hfz].
  - intros [= <-]. exists x. split; [apply list_elem_of_here | exact E].
Qed.

Lemma forM_failing_item (l : list A) (x : A) (e0 : exn) :
  x ∈ l -> f x = Err e0 -> exists e, forM f l = Err e.
Proof.
  intros Hin Hx. induction l as [|y l IH]; [inversion Hin|].
  simpl. destruct (f y) as [v|e] eqn:E; simpl; [|eauto].
  apply elem_of_cons in Hin as [->|Hin]; [congruence|].
  destruct (IH Hin) as [e ->]. simpl. eauto.
Qed.
End ForMErrors.

Lemma header_axis_error (g : grid) (d : dim) (e : exn) :
  header_axis g d = Err e -> e = IndexError /\ getaxis g d = [].
Proof.
  destruct (getaxis g d) as [|c a] eqn:E.
  - unfold header_axis. rewrite E. simpl. now intros [= <-].
  - destruct (header_axis_describes g d) as (l & -> & _); [congruence|].
    discriminate.
Qed.

Lemma header_axis_empty (g : grid) (d : dim) :
  getaxis g d = [] -> header_axis g d = Err IndexError.
Proof. intros E. unfold header_axis. now rewrite E. Qed.

Lemma axis_blocks_written (g : grid) (pluto4 : bool) :
  exists blocks,
    forM (fun d => axis_lines pluto4 (getaxis g d)) keys = Ok blocks.
Proof.
  simpl.
  destruct (axis_lines_rows pluto4 (x1 g)) as (r1 & -> & _).
  destruct (axis_lines_rows pluto4 (x2 g)) as (r2 & -> & _).
  destruct (axis_lines_rows pluto4 (x3 g)) as (r3 & -> & _).
  simpl. eauto.
Qed.

(** X6. [write_grid] fails in one situation only: in the current format,
    when one of the axes the header describes (the first [ndim] ones) has
    no point at all; the exception is then [IndexError].  The legacy
    format is written for every grid. *)
Theorem write_grid_fails (g : grid) (pluto4 : bool) (geometry : pystr)
    (e : exn) :
  write_grid g pluto4 geometry = Err e <->
  pluto4 = true /\ e = IndexError
  /\ exists d, d ∈ described g /\ getaxis g d = [].
Proof.
  unfold write_grid, write_grid_header, header_lines.
  rewrite header_axes_prefix by apply count_active_le. fold (described g).
  destruct (axis_blocks_written g pluto4) as [blocks Hblocks].
  split.
  - destruct pluto4; [|rewrite bind_Ok, Hblocks; discriminate].
    destruct (forM (header_axis g) (described g)) as [axes|e'] eqn:E.
    { rewrite !bind_Ok, Hblocks. discriminate. }
    rewrite !bind_Err. intros [= <-].
    apply forM_Err_inv in E as (d & Hd & Hfd).
    apply header_axis_error in Hfd as [-> Hempty]. eauto.
  - intros (-> & -> & d & Hd & Hempty).
    destruct (forM_failing_item (header_axis g) (described g) d IndexError
                Hd (header_axis_empty g d Hempty)) as [e' He'].
    rewrite He', !bind_Err. f_equal.
    apply forM_Err_inv in He' as (d' & _ & Hd').
    now apply header_axis_error in Hd' as [-> _].
Qed.

(** X7. Writing a grid without empty axis, in either format and with a
    geometry label of one line (without newline and carriage return), and
    reading the file back succeeds; every axis comes back with as many
    centres as it had, and each centre read back is the one computed from
    the edges as written: the edges are the centre minus and plus half the
    first spacing, rounded to 12 decimals (0 and 1 for an axis of one
    point), printed with 13 significant digits; the current format gives
    the midpoint of the two printed edges, the legacy format the printed
    midpoint of the two edges. *)
Theorem write_read_grid_centers (g : grid) (pluto4 : bool)
    (geometry : pystr) :
  (forall d, getaxis g d <> []) ->
  newline ∉ geometry -> carriage_return ∉ geometry ->
  exists file g',
    write_grid g pluto4 geometry = Ok file /\ read_grid file = Ok g'
    /\ forall d, Forall2 (read_back pluto4 (getaxis g d))
                   (getaxis g d) (getaxis g' d).
Proof.
  intros Hne Hnl Hcr. apply write_read_grid_exact; [exact Hne | now split].
Qed.

Lemma write_read_grid_centers_witness :
  exists file g',
    write_grid slab_grid false (str "cartesian") = Ok file
    /\ read_grid file = Ok g'
    /\ forall d, Forall2 (read_back false (getaxis slab_grid d))
                   (getaxis slab_grid d) (getaxis g' d).
Proof.
  apply (write_read_grid_centers slab_grid false (str "cartesian")).
  - intros d. destruct d; discriminate.
  - apply (bool_decide_unpack _). vm_compute. exact I.
  - apply (bool_decide_unpack _). vm_compute. exact I.
Defined.

(** ** The output log: concatenation, record fields, line order *)

(** The body of the loop of [read_output_log]. *)
Definition output_step (data : gmap Z payload) (ln : pystr)
  : result (gmap Z payload) :=
  '(nfile, p) ← read_output_line ln; Ok (<[nfile := p]> data).

Lemma read_output_log_loop (file : pystr) :
  read_output_log file = foldM output_step ∅ (file_lines file).
Proof. reflexivity. Qed.

(** Starting the loop from a dictionary gives what starting from the
    empty one gives, laid over that dictionary. *)
Lemma output_loop_union (lines : list pystr) (d0 : gmap Z payload) :
  foldM output_step d0 lines
  = (d ← foldM output_step ∅ lines; Ok (d ∪ d0)).
Proof.
  induction lines as [|ln lines IH] using rev_ind.
  - simpl. now rewrite (left_id_L ∅ (∪)).
  - rewrite !foldM_app, IH.
    destruct (foldM output_step ∅ lines) as [d|e]; [|reflexivity].
    rewrite !bind_Ok. simpl. unfold output_step.
    destruct (read_output_line ln) as [[k p]|e]; [|reflexivity].
    simpl. now rewrite insert_union_l.
Qed.

(** X8. Reading two catalogs written one after the other gives the
    records of the second laid over those of the first: every index of the
    second catalog has its record from there, every other index its record
    from the first. *)
Theorem read_output_log_concat (f1 f2 : pystr) (d1 d2 : gmap Z payload) :
  whole_lines f1 ->
  read_output_log f1 = Ok d1 -> read_output_log f2 = Ok d2 ->
  read_output_log (f1 ++ f2) = Ok (d2 ∪ d1).
Proof.
  rewrite !read_output_log_loop. intros Hf1 H1 H2.
  rewrite file_lines_app, foldM_app, H1 by assumption.
  rewrite bind_Ok, output_loop_union, H2. reflexivity.
Qed.

Lemma read_output_log_concat_witness :
  read_output_log (catalog_example ++ five_field_catalog)
  = Ok ({[ 3 := {| time := (12.5 * time2yrs)%float; _time := 12.5%float;
                   _output := str "dbl"; vars := [] |} ]}
        ∪ {[ 3 := {| time := (13.0 * time2yrs)%float; _time := 13.0%float;
                     _output := str "flt"; vars := [str "prs"] |} ]}).
Proof.
  apply (read_output_log_concat catalog_example five_field_catalog).
  - right. vm_compute; reflexivity.
  - vm_compute; reflexivity.
  - vm_compute; reflexivity.
Defined.

(** A field of a line: not empty and without white space. *)
Definition field (w : pystr) : Prop :=
  w <> [] /\ forallb nonspace w = true.

Lemma split_fields_ok (s : pystr) : Forall field (split s).
Proof.
  induction s as [|c r IH]; simpl; [constructor|].
  destruct (isspace c) eqn:Hc; [exact IH|].
  assert (Hone : field [c]).
  { split; [discriminate|]. simpl. unfold nonspace. now rewrite Hc. }
  destruct r as [|d r']; [now constructor|].
  destruct (isspace d) eqn:Hd; [now constructor|].
  destruct (split (d :: r')) as [|w ws]; [now constructor|].
  inversion_clear IH as [|? ? [Hw Hall] Hws].
  constructor; [|exact Hws]. split; [discriminate|].
  simpl. unfold nonspace at 1. now rewrite Hc, Hall.
Qed.

Lemma read_output_line_fields (ln : pystr) (k : Z) (p : payload) :
  read_output_line ln = Ok (k, p) ->
  time p = (_time p * time2yrs)%float
  /\ field (_output p) /\ Forall field (vars p).
Proof.
  unfold read_output_line. pose proof (split_fields_ok ln) as Hall.
  intros (s0 & _ & H)%bind_Ok_inv.
  apply bind_Ok_inv in H as (n & _ & H).
  apply bind_Ok_inv in H as (s1 & _ & H).
  apply bind_Ok_inv in H as (t & _ & H).
  apply bind_Ok_inv in H as (lab & Hlab & [= <- <-]). simpl.
  split; [reflexivity|]. split.
  - unfold getitem in Hlab.
    destruct (split ln !! 4%nat) as [w|] eqn:E; [|discriminate].
    injection Hlab as <-. rewrite Forall_forall in Hall.
    apply Hall. eapply list_elem_of_lookup_2, E.
  - now apply Forall_drop.
Qed.

(** X9. In every record [read_output_log] returns, the time in years is
    the raw time multiplied by [time2yrs], the format label is a non-empty
    word without white space, and so is every variable name. *)
Theorem read_output_log_record_fields (file : pystr)
    (data : gmap Z payload) (k : Z) (p : payload) :
  read_output_log file = Ok data -> data !! k = Some p ->
  time p = (_time p * time2yrs)%float
  /\ field (_output p) /\ Forall field (vars p).
Proof.
  rewrite read_output_log_loop.
  set (P := fun (_ : Z) (q : payload) =>
              time q = (_time q * time2yrs)%float
              /\ field (_output q) /\ Forall field (vars q)).
  assert (Hinv : forall lines d0 d,
             map_Forall P d0 -> foldM output_step d0 lines = Ok d ->
             map_Forall P d).
  { induction lines as [|ln lines IH]; intros d0 d Hd0; simpl.
    - now intros [= <-].
    - intros (d1 & Hstep & Hrest)%bind_Ok_inv.
      apply (IH d1 d); [|exact Hrest].
      unfold output_step in Hstep.
      apply bind_Ok_inv in Hstep as ([k' p'] & Hline & [= <-]).
      apply map_Forall_insert_2; [|exact Hd0].
      now apply (read_output_line_fields ln k'). }
  intros Hrun Hk. apply (Hinv _ ∅ data (map_Forall_empty P) Hrun k p Hk).
Qed.

Lemma read_output_log_record_fields_witness :
  time {| time := (13.0 * time2yrs)%float; _time := 13.0%float;
          _output := str "flt"; vars := [str "prs"] |}
  = (_time {| time := (13.0 * time2yrs)%float; _time := 13.0%float;
              _output := str "flt"; vars := [str "prs"] |}
     * time2yrs)%float
  /\ field (_output {| time := (13.0 * time2yrs)%float;
                       _time := 13.0%float;
                       _output := str "flt"; vars := [str "prs"] |})
  /\ Forall field (vars {| time := (13.0 * time2yrs)%float;
                           _time := 13.0%float;
                           _output := str "flt"; vars := [str "prs"] |}).
Proof.
  apply (read_output_log_record_fields catalog_example
           {[ 3 := {| time := (13.0 * time2yrs)%float; _time := 13.0%float;
                      _output := str "flt"; vars := [str "prs"] |} ]} 3).
  - vm_compute; reflexivity.
  - apply lookup_singleton_eq.
Defined.

(** The records of the lines, in file order. *)
Lemma output_loop_records (lines : list pystr) (d0 : gmap Z payload) :
  foldM output_step d0 lines
  = (rs ← forM read_output_line lines;
     Ok (foldl (fun d kp => <[kp.1 := kp.2]> d) d0 rs)).
Proof.
  revert d0. induction lines as [|ln lines IH]; intros d0; [reflexivity|].
  rewrite foldM_cons. simpl forM.
  change (output_step d0 ln)
    with ('(nfile, p) ← read_output_line ln; Ok (<[nfile := p]> d0)).
  destruct (read_output_line ln) as [[k p]|e]; [|reflexivity].
  rewrite !bind_Ok, IH.
  now destruct (forM read_output_line lines).
Qed.

Lemma forM_permutation {A B} (f : A -> result B) (l l' : list A)
    (ys : list B) :
  l ≡ₚ l' -> forM f l = Ok ys ->
  exists ys', forM f l' = Ok ys' /\ ys ≡ₚ ys'.
Proof.
  intros Hperm. revert ys.
  induction Hperm as [|x l l' _ IH|x y l|l l' l'' _ IH1 _ IH2]; intros ys.
  - intros [= <-]. now exists [].
  - simpl. intros (v & Hv & H)%bind_Ok_inv.
    apply bind_Ok_inv in H as (vs & Hvs & [= <-]).
    destruct (IH _ Hvs) as (vs' & Hvs' & Hp).
    exists (v :: vs'). rewrite Hv, Hvs'. split; [reflexivity|].
    now constructor.
  - simpl. intros (v & Hv & H)%bind_Ok_inv.
    apply bind_Ok_inv in H as (vs & H & [= <-]).
    apply bind_Ok_inv in H as (w & Hw & H).
    apply bind_Ok_inv in H as (ws & Hws & [= <-]).
    exists (w :: v :: ws). rewrite Hw, Hv, Hws. split; [reflexivity|].
    apply Permutation_swap.
  - intros H. destruct (IH1 _ H) as (ys' & H' & Hp1).
    destruct (IH2 _ H') as (ys'' & H'' & Hp2).
    exists ys''. split; [exact H''|]. now transitivity ys'.
Qed.

Lemma insert_records_permutation (rs rs' : list (Z * payload))
    (d0 : gmap Z payload) :
  rs ≡ₚ rs' -> NoDup rs.*1 ->
  foldl (fun d kp => <[kp.1 := kp.2]> d) d0 rs
  = foldl (fun d kp => <[kp.1 := kp.2]> d) d0 rs'.
Proof.
  intros Hperm. revert d0.
  induction Hperm as [|x l l' _ IH|x y l|l l' l'' Hp1 IH1 _ IH2];
    intros d0 Hnd.
  - reflexivity.
  - simpl. apply IH. now inversion Hnd.
  - simpl. f_equal. apply insert_insert_ne.
    inversion_clear Hnd as [|? ? Hnotin _].
    intros E. apply Hnotin. rewrite E. apply list_elem_of_here.
  - rewrite IH1 by assumption. apply IH2. now rewrite <- Hp1.
Qed.

(** X10. When no two lines of a catalog carry the same index, the order of
    its lines does not matter: a file with the same lines in another order
    is read to the same dictionary. *)
Theorem read_output_log_line_order (f f' : pystr)
    (rs : list (Z * payload)) :
  forM read_output_line (file_lines f) = Ok rs -> NoDup rs.*1 ->
  file_lines f ≡ₚ file_lines f' ->
  read_output_log f' = read_output_log f.
Proof.
  intros Hrs Hnd Hperm. rewrite !read_output_log_loop, !output_loop_records.
  destruct (forM_permutation _ _ _ _ Hperm Hrs) as (rs' & -> & Hp).
  rewrite Hrs, !bind_Ok. f_equal. symmetry.
  now apply insert_records_permutation.
Qed.

Definition two_outputs : pystr :=
  line (str "0 0.0 1e-4 0 dbl 0 rho vx1") ++ line (str "1 0.5 1e-4 17 dbl 0 rho").

Definition two_outputs_swapped : pystr :=
  line (str "1 0.5 1e-4 17 dbl 0 rho") ++ line (str "0 0.0 1e-4 0 dbl 0 rho vx1").

Lemma read_output_log_line_order_witness :
  read_output_log two_outputs_swapped = read_output_log two_outputs.
Proof.
  apply (read_output_log_line_order two_outputs two_outputs_swapped
           [(0, {| time := (0 * time2yrs)%float; _time := 0%float;
                   _output := str "dbl"; vars := [str "rho"; str "vx1"] |});
            (1, {| time := (0.5 * time2yrs)%float; _time := 0.5%float;
                   _output := str "dbl"; vars := [str "rho"] |})]).
  - vm_compute; reflexivity.
  - apply (bool_decide_unpack _). vm_compute. exact I.
  - change (file_lines two_outputs)
      with [line (str "0 0.0 1e-4 0 dbl 0 rho vx1");
            line (str "1 0.5 1e-4 17 dbl 0 rho")].
    change (file_lines two_outputs_swapped)
      with [line (str "1 0.5 1e-4 17 dbl 0 rho");
            line (str "0 0.0 1e-4 0 dbl 0 rho vx1")].
    apply Permutation_swap.
Defined.

(** ** The configuration reader: what it returns and how it fails *)

(** X11. In every document [read_config] returns, the section names are
    pairwise different and contain no newline; within a section the keys
    are pairwise different, each key is non-empty and free of spaces and
    newlines, and each value is non-empty, free of newlines and without
    white space at either end. *)
Theorem read_config_wellformed (file : pystr) (d : config) :
  read_config file = Ok d ->
  NoDup (od_keys d)
  /\ forall s m, (s, m) ∈ d ->
       (newline ∉ s) /\ NoDup (od_keys m)
       /\ forall k v, (k, v) ∈ m ->
            k <> [] /\ (space ∉ k) /\ (newline ∉ k)
            /\ v <> [] /\ (newline ∉ v) /\ trimmed v.
Proof.
  intros [Hnd Hall]%read_config_ok. split; [exact Hnd|].
  intros s m Hsm. rewrite Forall_forall in Hall.
  destruct (Hall _ Hsm) as ((Hs & _) & Hm & Hitems). simpl in *.
  split; [exact Hs|]. split; [exact Hm|].
  intros k v Hkv. rewrite Forall_forall in Hitems.
  destruct (Hitems _ Hkv) as ((? & ? & ? & _) & (? & ? & ?) & _).
  simpl in *. auto 10.
Qed.

Lemma read_config_wellformed_witness :
  NoDup (od_keys wide_key_config)
  /\ forall s m, (s, m) ∈ wide_key_config ->
       (newline ∉ s) /\ NoDup (od_keys m)
       /\ forall k v, (k, v) ∈ m ->
            k <> [] /\ (space ∉ k) /\ (newline ∉ k)
            /\ v <> [] /\ (newline ∉ v) /\ trimmed v.
Proof.
  apply (read_config_wellformed wide_key_file wide_key_config).
  vm_compute; reflexivity.
Defined.

(** The variable [section], once bound, names a section of the document. *)
Definition section_bound (st : config_state) : Prop :=
  forall s, st.2 = Some s -> s ∈ od_keys st.1.

Lemma config_step_bound (st st' : config_state) (raw : pystr) :
  section_bound st -> config_step st raw = Ok st' ->
  section_bound st' /\ (is_Some st.2 -> is_Some st'.2).
Proof.
  destruct st as [data section]. intros Hb H.
  apply config_step_inv in H
    as [[_ ->]|[[_ ->]|[_ (key & rest & s & m & _ & _ & -> & Hm & ->)]]].
  - now split.
  - split; [|eauto]. intros s [= <-]. simpl.
    apply od_get_keys. rewrite od_get_set_eq. eauto.
  - split; [|eauto]. intros s' [= <-]. simpl.
    apply od_get_keys. rewrite od_get_set_eq. eauto.
Qed.

Lemma config_step_error (st : config_state) (raw : pystr) (e : exn) :
  section_bound st -> config_step st raw = Err e ->
  e = ValueError \/ (e = NameError /\ st.2 = None).
Proof.
  destruct st as [data section]. intros Hb. unfold config_step.
  destruct (is_header (strip raw)); [discriminate|].
  case_bool_decide; [discriminate|].
  destruct (split_space1 (strip raw)) as [|key [|val [|? ?]]];
    try (intros [= <-]; now left).
  destruct section as [s|]; [|intros [= <-]; now right].
  destruct (od_get s data) eqn:E; [discriminate|].
  exfalso. specialize (Hb s eq_refl). apply od_get_keys in Hb as [m Hm].
  simpl in Hm. congruence.
Qed.

Lemma read_lines_error (lines : list pystr) (st : config_state) (e : exn) :
  section_bound st -> foldM config_step st lines = Err e ->
  e = ValueError \/ (e = NameError /\ st.2 = None).
Proof.
  revert st. induction lines as [|ln lines IH]; intros st Hb; simpl;
    [discriminate|].
  destruct (config_step st ln) as [st1|e1] eqn:E; simpl.
  - destruct (config_step_bound _ _ _ Hb E) as [Hb1 Hsome].
    intros [H|[-> Hnone]]%(IH st1 Hb1); [now left|].
    right. split; [reflexivity|].
    destruct st.2; [|reflexivity].
    destruct Hsome as [s Hs]; [eauto|]. congruence.
  - intros [= <-]. eapply config_step_error; eassumption.
Qed.

(** X12. [read_config] raises nothing but [ValueError] (a line without a
    space to split at) or [NameError] (a pair before the first header); in
    particular the lookup [data[section]] never fails. *)
Theorem read_config_errors (file : pystr) (e : exn) :
  read_config file = Err e -> e = ValueError \/ e = NameError.
Proof.
  unfold read_config, read_config_lines.
  destruct (foldM config_step ([], None) (file_lines file)) as [st|e'] eqn:E;
    [discriminate|].
  intros [= <-].
  apply read_lines_error in E as [->|[-> _]]; auto.
  intros s [=].
Qed.

Definition headless_file : pystr :=
  line [] ++ line (str "CFL 0.4") ++ line (str "[Time]").

Lemma read_config_errors_witness :
  NameError = ValueError \/ NameError = NameError.
Proof.
  apply (read_config_errors headless_file NameError).
  vm_compute; reflexivity.
Defined.

(** X13. A file whose first non-blank line is not a header is not read:
    the reader raises [NameError] when that line contains a space (the
    pair has no section to go to) and [ValueError] when it does not. *)
Theorem read_config_pair_before_header (file ln : pystr)
    (blanks rest : list pystr) :
  file_lines file = blanks ++ ln :: rest ->
  Forall (fun l => strip l = []) blanks ->
  is_header (strip ln) = false -> strip ln <> [] ->
  read_config file
  = Err (if bool_decide (space ∈ strip ln) then NameError else ValueError).
Proof.
  intros Hlines Hblanks Hh Hne. unfold read_config, read_config_lines.
  rewrite Hlines, foldM_app.
  assert (foldM config_step ([], None) blanks = Ok ([], None)) as ->.
  { clear Hlines. induction Hblanks as [|b blanks Hb _ IH]; [reflexivity|].
    rewrite foldM_cons, config_step_blank by assumption. exact IH. }
  rewrite bind_Ok, foldM_cons. unfold config_step. rewrite Hh.
  rewrite (bool_decide_eq_false_2 (strip ln = [])) by assumption.
  destruct (first_space (strip ln)) as [Hn|(key & val & Hcut & Hkey)].
  - rewrite split_space1_none by assumption.
    now rewrite bool_decide_eq_false_2.
  - rewrite Hcut, split_space1_cut by assumption.
    rewrite bool_decide_eq_true_2; [reflexivity|].
    rewrite elem_of_app, elem_of_cons. auto.
Qed.

Lemma read_config_pair_before_header_witness :
  read_config headless_file
  = Err (if bool_decide (space ∈ strip (line (str "CFL 0.4")))
         then NameError else ValueError).
Proof.
  apply (read_config_pair_before_header headless_file
           (line (str "CFL 0.4")) [line []] [line (str "[Time]")]).
  - vm_compute; reflexivity.
  - repeat constructor.
  - vm_compute; reflexivity.
  - vm_compute; discriminate.
Defined.

(** A line of white space is blank, and blank lines leave the state of
    the reader as it is. *)
Lemma blank_strip (ln : pystr) : forallb isspace ln = true -> strip ln = [].
Proof.
  intros H. unfold strip, lstrip_with. now rewrite dropwhile_all.
Qed.

Lemma read_blank_lines (st : config_state) (blanks : list pystr) :
  Forall (fun l => strip l = []) blanks ->
  foldM config_step st blanks = Ok st.
Proof.
  induction 1 as [|b blanks Hb _ IH]; [reflexivity|].
  rewrite foldM_cons, config_step_blank by assumption. exact IH.
Qed.

(** The characters of a line read from a file are characters of the file,
    or the newline put for a line end. *)
Lemma file_lines_elem (file ln : pystr) (c : ascii) :
  ln ∈ file_lines file -> c ∈ ln -> c ∈ file \/ c = newline.
Proof.
  intros Hln Hc. apply universal_newlines_elem.
  now apply (text_lines_elem _ ln).
Qed.

(** X14. Blank lines are ignored wherever they stand: a line of white
    space inserted between the lines of a file does not change what
    [read_config] returns or raises. *)
Theorem read_config_blank_line (f1 f2 ws : pystr) :
  whole_lines f1 -> forallb isspace ws = true -> newline ∉ ws ->
  read_config (f1 ++ line ws ++ f2) = read_config (f1 ++ f2).
Proof.
  intros Hf1 Hws _. unfold read_config, read_config_lines.
  rewrite (file_lines_app f1 (line ws ++ f2)), (file_lines_app f1 f2),
    (file_lines_app (line ws) f2), !foldM_app
    by (assumption || apply whole_lines_line).
  destruct (foldM config_step ([], None) (file_lines f1)) as [st|e];
    [|reflexivity].
  rewrite !bind_Ok, foldM_app, read_blank_lines; [reflexivity|].
  apply Forall_forall. intros ln Hln. apply blank_strip.
  apply forallb_forall. intros c Hc.
  destruct (file_lines_elem _ _ c Hln) as [Hin| ->];
    [now apply list_elem_of_In | | reflexivity].
  unfold line in Hin. rewrite elem_of_app, list_elem_of_singleton in Hin.
  destruct Hin as [Hin| ->]; [|reflexivity].
  rewrite forallb_forall in Hws. now apply Hws, list_elem_of_In.
Qed.

Lemma read_config_blank_line_witness :
  read_config (line (str "[Time]") ++ line (str "  ")
               ++ line (str "CFL 0.4"))
  = read_config (line (str "[Time]") ++ line (str "CFL 0.4")).
Proof.
  apply (read_config_blank_line (line (str "[Time]")) (line (str "CFL 0.4"))
           (str "  ")).
  - right. vm_compute; reflexivity.
  - reflexivity.
  - apply (bool_decide_unpack _). vm_compute. exact I.
Defined.

(** ** The configuration writer: which documents are read back *)

(** X15. A document need not come from a file to be read back: whenever
    its section names are pairwise different, free of newlines, without
    ['['] in front and [']'] at the end, and its keys are pairwise
    different within a section, non-empty, shorter than 25 characters,
    free of spaces and newlines and not starting with white space, and its
    values are non-empty, free of newlines and trimmed, and no pair starts
    with ['['] and ends with [']'], and no name, key or value holds a
    carriage return, [read_config] returns the document from what
    [write_config] writes. *)
Theorem config_roundtrip_built (d : config) :
  config_ok d -> config_free carriage_return d ->
  (forall s m k v, (s, m) ∈ d -> (k, v) ∈ m -> (length k < 25)%nat) ->
  read_config (write_config d) = Ok d.
Proof. apply read_written_config. Qed.

Definition built_config : config :=
  [(str "Static Grid Output", [(str "dbl", str "1.0  -1   single_file");
                               (str "log", str "100")]);
   (str "Parameters", [])].

Lemma config_roundtrip_built_witness :
  read_config (write_config built_config) = Ok built_config.
Proof.
  apply (config_roundtrip_built built_config).
  - unfold config_ok, built_config, od_keys. simpl. split.
    + apply (bool_decide_unpack _). vm_compute. exact I.
    + repeat constructor; simpl;
        try (apply (bool_decide_unpack _); vm_compute; exact I);
        try discriminate; try (intros c [= <-]; reflexivity).
  - unfold config_free, built_config.
    repeat constructor; simpl;
      apply (bool_decide_unpack _); vm_compute; exact I.
  - intros s m k v Hsm Hkv. apply list_elem_of_In in Hsm. simpl in Hsm.
    destruct Hsm as [H|[H|[]]]; injection H as _ <-;
      apply list_elem_of_In in Hkv; simpl in Hkv.
    + destruct Hkv as [H|[H|[]]]; injection H as <- _; vm_compute; lia.
    + destruct Hkv.
Defined.

Lemma config_item_written (d : config) (s : pystr) (m : odict pystr)
    (kv : pystr * pystr) :
  (s, m) ∈ d -> kv ∈ m -> config_item kv ∈ config_lines d.
Proof.
  intros Hsm Hkv. unfold config_lines.
  apply list_elem_of_In, in_concat.
  exists (config_section (s, m)). split.
  - apply in_map, list_elem_of_In, Hsm.
  - apply list_elem_of_In. unfold config_section. simpl.
    do 2 apply list_elem_of_further.
    apply elem_of_app. left. now apply list_elem_of_fmap_2.
Qed.

(** *** A carriage return in a written line *)

Section Occurrences.
Context {A : Type} `{EqDecision A} (x : A).

Lemma first_occurrence (l : list A) :
  x ∉ l \/ exists pre suf, l = pre ++ x :: suf /\ x ∉ pre.
Proof.
  induction l as [|y l [IH|(pre & suf & -> & IH)]].
  - left. apply not_elem_of_nil.
  - destruct (decide (y = x)) as [->|Hne].
    + right. exists [], l. split; [reflexivity | apply not_elem_of_nil].
    + left. apply not_elem_of_cons. auto.
  - right. destruct (decide (y = x)) as [->|Hne].
    + exists [], (pre ++ x :: suf).
      split; [reflexivity | apply not_elem_of_nil].
    + exists (y :: pre), suf. split; [reflexivity|].
      apply not_elem_of_cons. auto.
Qed.

Lemma last_occurrence (l : list A) :
  x ∉ l \/ exists pre suf, l = pre ++ x :: suf /\ x ∉ suf.
Proof.
  induction l as [|y l [IH|(pre & suf & -> & IH)]].
  - left. apply not_elem_of_nil.
  - destruct (decide (y = x)) as [->|Hne].
    + right. now exists [], l.
    + left. apply not_elem_of_cons. auto.
  - right. now exists (y :: pre), suf.
Qed.

Lemma not_elem_of_last (l : list A) : x ∉ l -> last l <> Some x.
Proof.
  intros H Hl. apply H.
  destruct l as [|y l _] using rev_ind; [discriminate|].
  rewrite last_snoc in Hl. injection Hl as ->.
  rewrite elem_of_app, list_elem_of_singleton. auto.
Qed.
End Occurrences.

(** The translation of line ends can be done in two pieces cut anywhere
    but in front of a newline. *)
Lemma universal_newlines_split (s t : pystr) :
  head t <> Some newline ->
  universal_newlines (s ++ t) = universal_newlines s ++ universal_newlines t.
Proof.
  intros Ht. induction s as [|c r IH]; [reflexivity|].
  destruct (decide (c = carriage_return)) as [->|Hc].
  - destruct r as [|d r].
    + destruct t as [|x t]; [reflexivity|].
      change ([carriage_return] ++ x :: t) with (carriage_return :: x :: t).
      rewrite universal_newlines_cr, bool_decide_eq_false_2; [reflexivity|].
      intros ->. now apply Ht.
    + change ((carriage_return :: d :: r) ++ t)
        with (carriage_return :: d :: r ++ t).
      rewrite !universal_newlines_cr.
      change (d :: r ++ t) with ((d :: r) ++ t). rewrite IH.
      now case_bool_decide.
  - change ((c :: r) ++ t) with (c :: r ++ t).
    rewrite !universal_newlines_cons by assumption. now rewrite IH.
Qed.

Lemma universal_newlines_cr_head (s : pystr) :
  exists t, universal_newlines (carriage_return :: s) = newline :: t.
Proof.
  destruct s as [|d s]; [now exists []|].
  rewrite universal_newlines_cr. case_bool_decide as Hd; [|eauto].
  subst d. rewrite universal_newlines_cons by discriminate. eauto.
Qed.

Lemma text_lines_single (p : pystr) :
  newline ∉ p -> text_lines (line p) = [line p].
Proof.
  intros H. pose proof (text_lines_line p [] H) as E.
  now rewrite app_nil_r in E.
Qed.

Lemma file_lines_single (p : pystr) :
  one_line p -> file_lines (line p) = [line p].
Proof.
  intros [Hnl Hcr]. pose proof (file_lines_line p [] Hnl Hcr) as E.
  now rewrite app_nil_r in E.
Qed.

(** The text in front of the first carriage return of a file is its
    first line. *)
Lemma file_lines_first_piece (p rest : pystr) :
  one_line p -> line p ∈ file_lines (p ++ carriage_return :: rest).
Proof.
  intros [Hnl Hcr]. unfold file_lines.
  rewrite universal_newlines_app by now apply not_elem_of_last.
  rewrite universal_newlines_id by assumption.
  destruct (universal_newlines_cr_head rest) as [t ->].
  change (p ++ newline :: t) with (p ++ [newline] ++ t).
  rewrite app_assoc. fold (line p).
  rewrite text_lines_line by assumption. apply list_elem_of_here.
Qed.

(** The text after the last carriage return of a file that ends with a
    newline is its last line. *)
Lemma file_lines_last_piece (pre p : pystr) :
  one_line p -> p <> [] ->
  line p ∈ file_lines (pre ++ carriage_return :: line p).
Proof.
  intros [Hnl Hcr] Hp. unfold file_lines.
  change (pre ++ carriage_return :: line p)
    with (pre ++ [carriage_return] ++ line p).
  rewrite app_assoc, universal_newlines_split.
  2:{ destruct p as [|c p]; [contradiction|]. simpl. intros [= ->].
      apply Hnl, list_elem_of_here. }
  rewrite (universal_newlines_split pre [carriage_return]) by discriminate.
  rewrite (universal_newlines_id (line p)).
  2:{ unfold line. rewrite elem_of_app, list_elem_of_singleton.
      intros [H|H]; [contradiction | discriminate]. }
  rewrite text_lines_app by (right; apply last_snoc).
  rewrite text_lines_single by assumption.
  rewrite elem_of_app. right. apply list_elem_of_here.
Qed.

Lemma strip_head (s : pystr) (c : ascii) :
  head s = Some c -> isspace c = false -> head (strip s) = Some c.
Proof.
  intros Hs Hc. destruct s as [|x s]; [discriminate|].
  injection Hs as ->. unfold strip, lstrip_with.
  rewrite dropwhile_stop by assumption.
  destruct (rstrip_with_prefix isspace (c :: s)) as (suf & Heq & Hsuf).
  destruct (rstrip_with isspace (c :: s)) as [|y r].
  - simpl in Heq. subst suf. simpl in Hsuf. now rewrite Hc in Hsuf.
  - now injection Heq as <-.
Qed.

(** A line that is neither blank nor a header and has no space is refused
    in every state of the reader. *)
Lemma line_refused (st : config_state) (ln : pystr) :
  strip ln <> [] -> is_header (strip ln) = false -> space ∉ strip ln ->
  config_step st ln = Err ValueError.
Proof.
  intros Hne Hh Hsp. destruct st as [data section].
  unfold config_step. rewrite Hh.
  rewrite bool_decide_eq_false_2 by assumption.
  now rewrite split_space1_none.
Qed.

(** The line written for a text without space that is no header: among
    the lines read from it, the first or the last is refused. *)
Lemma unreadable_piece (body : pystr) :
  body <> [] -> newline ∉ body -> space ∉ body -> trimmed body ->
  is_header body = false ->
  exists piece,
    piece ∈ file_lines (line body)
    /\ forall st, config_step st piece = Err ValueError.
Proof.
  intros Hne Hnl Hsp [Hhd Hlast] Hh.
  assert (Hwhole : one_line body ->
            exists piece, piece ∈ file_lines (line body)
              /\ forall st, config_step st piece = Err ValueError).
  { intros Hone. exists (line body). split.
    - rewrite file_lines_single by assumption. apply list_elem_of_here.
    - intros st. apply line_refused; rewrite strip_line, strip_id;
        (assumption || now split). }
  destruct (startswith "["%char body) eqn:Hs.
  - destruct (last_occurrence carriage_return body)
      as [Hcr|(pre & p & -> & Hcr)]; [now apply Hwhole|].
    assert (Hp : p <> []).
    { intros ->. now specialize (Hlast carriage_return (last_snoc _ _)). }
    destruct (last_nonempty p Hp) as [z Hz].
    assert (Hzb : last (pre ++ carriage_return :: p) = Some z).
    { change (pre ++ carriage_return :: p)
        with (pre ++ [carriage_return] ++ p).
      now rewrite app_assoc, last_app_r. }
    pose proof (strip_last p z Hz (Hlast z Hzb)) as Hsl.
    assert (Hpl : one_line p).
    { split; [|exact Hcr]. intros H. apply Hnl.
      rewrite elem_of_app, elem_of_cons. auto. }
    exists (line p). split.
    + unfold line at 2. rewrite <- app_assoc.
      now apply file_lines_last_piece.
    + intros st. apply line_refused; rewrite strip_line.
      * intros E. now rewrite E in Hsl.
      * unfold is_header, endswith in *. rewrite Hsl.
        rewrite Hzb, Hs in Hh. simpl in Hh. rewrite Hh.
        apply andb_false_r.
      * intros H%strip_elem. apply Hsp.
        rewrite elem_of_app, elem_of_cons. auto.
  - destruct (first_occurrence carriage_return body)
      as [Hcr|(p & rest & -> & Hcr)]; [now apply Hwhole|].
    destruct p as [|c p].
    { now specialize (Hhd carriage_return eq_refl). }
    pose proof (strip_head (c :: p) c eq_refl (Hhd c eq_refl)) as Hsh.
    assert (Hpl : one_line (c :: p)).
    { split; [|exact Hcr]. intros H. apply Hnl. rewrite elem_of_app. auto. }
    exists (line (c :: p)). split.
    + unfold line at 2. rewrite <- app_assoc.
      now apply file_lines_first_piece.
    + intros st. apply line_refused; rewrite strip_line.
      * intros E. now rewrite E in Hsh.
      * unfold is_header, startswith in *.
        destruct (strip (c :: p)) as [|y r]; [reflexivity|].
        injection Hsh as ->. simpl in Hs. now rewrite Hs.
      * intros H%strip_elem. apply Hsp. rewrite elem_of_app. auto.
Qed.

Lemma config_lines_whole (d : config) : Forall whole_lines (config_lines d).
Proof.
  unfold config_lines. induction d as [|[s m] d IH]; [constructor|].
  simpl. repeat (constructor; [apply whole_lines_line|]).
  rewrite <- app_assoc. apply Forall_app. split.
  - apply Forall_forall. intros l (kv & -> & _)%list_elem_of_fmap.
    apply whole_lines_line.
  - constructor; [apply whole_lines_line | exact IH].
Qed.

Lemma concat_whole (ls : list pystr) :
  Forall whole_lines ls -> whole_lines (concat ls).
Proof.
  induction 1 as [|l ls Hl _ IH]; [now left|].
  simpl. now apply whole_lines_app.
Qed.

(** The lines read from one written line are among those read from the
    file written. *)
Lemma written_piece (d : config) (l piece : pystr) :
  l ∈ config_lines d -> piece ∈ file_lines l ->
  piece ∈ file_lines (write_config d).
Proof.
  intros Hl Hpiece. unfold write_config.
  pose proof (config_lines_whole d) as Hwhole.
  apply list_elem_of_split in Hl as (l1 & l2 & Heq).
  rewrite Heq in Hwhole |- *.
  apply Forall_app in Hwhole as [H1 H2].
  inversion_clear H2 as [|? ? Hlw _].
  rewrite concat_app. simpl.
  rewrite !file_lines_app by (assumption || now apply concat_whole).
  rewrite !elem_of_app. auto.
Qed.

(** X16. A well-formed document with a key of 25 characters or more whose
    value contains no space is not read back: the line written for that
    pair has no space to split at, and [read_config] fails on what
    [write_config] wrote. *)
Theorem wide_key_unreadable (d : config) (s : pystr) (m : odict pystr)
    (k v : pystr) :
  config_ok d -> (s, m) ∈ d -> (k, v) ∈ m ->
  (25 <= length k)%nat -> space ∉ v ->
  exists e, read_config (write_config d) = Err e.
Proof.
  intros [_ Hok] Hsm Hkv Hlen Hv.
  assert (Hitem : item_ok (k, v)).
  { rewrite Forall_forall in Hok. destruct (Hok _ Hsm) as (_ & _ & Hm).
    rewrite Forall_forall in Hm. now apply Hm. }
  destruct Hitem as ((Hk & Hsp & Hknl & Hhd) & (Hv0 & Hvnl & _ & Hlast) & Hnh).
  simpl in *.
  assert (Hline : config_item (k, v) = line (k ++ v)).
  { unfold config_item, ljust. simpl.
    replace (25 - length k)%nat with 0%nat by lia.
    simpl. now rewrite app_nil_r. }
  destruct (unreadable_piece (k ++ v)) as (piece & Hpiece & Hfail).
  - now destruct k.
  - rewrite elem_of_app. tauto.
  - rewrite elem_of_app. tauto.
  - split; intros c Hc.
    + apply Hhd. now destruct k.
    + apply Hlast. now rewrite last_app_r in Hc.
  - unfold is_header. now rewrite startswith_app, endswith_app.
  - unfold read_config, read_config_lines.
    destruct (foldM_failing_item config_step ([], None)
                (file_lines (write_config d)) piece) as [e He].
    + apply (written_piece d (config_item (k, v))).
      * now apply (config_item_written d s m).
      * now rewrite Hline.
    + intros st. exists ValueError. apply Hfail.
    + exists e. now rewrite He.
Qed.

Lemma wide_key_unreadable_witness :
  exists e, read_config (write_config wide_key_config) = Err e.
Proof.
  apply (wide_key_unreadable wide_key_config (str "Solver")
           [(wide_key, str "hllc")] wide_key (str "hllc")).
  - exact (read_config_ok wide_key_file wide_key_config eq_refl).
  - apply list_elem_of_here.
  - apply list_elem_of_here.
  - vm_compute; lia.
  - apply (bool_decide_unpack _). vm_compute. exact I.
Defined.
